(** * Policy classification and translation engine

    A shallow embedding of the HDFS-to-Ozone part of
    [ranger_policy_migration_v2.py] (class [RangerPolicyMigration]) and the
    properties its specification states about it.

    Conventions of the embedding:
    - a Python [str] is a [string] of ASCII characters;
    - a policy, a policy item and an access grant are records whose optional
      fields stand for the keys a Python dict may lack ([d.get(k, default)]);
    - the [resources] dict of a policy is a [gmap string Resource];
    - a Python [set] of names is a [gset string], [list(s)] is [elements s]
      (the iteration order of a set is not fixed by Python either);
    - the configuration and the HDFS command line tools behind
      [get_hdfs_facl] and [get_hdfs_subdirs] are read through an [Env]
      record;
    - the run over all root identifiers records the calls it makes to its
      two sources of target policies. *)

From Stdlib Require Import Ascii.
From stdpp Require Import gmap strings list sorting.

Local Open Scope stdpp_scope.

(** ** Python string primitives *)

Module Py.

(** [c in s] for a one-character needle. *)
Fixpoint char_in (c : ascii) (s : string) : bool :=
  match s with
  | EmptyString => false
  | String d s' => if decide (d = c) then true else char_in c s'
  end.

(** [s.startswith(p)]. *)
Fixpoint startswith (p s : string) : bool :=
  match p, s with
  | EmptyString, _ => true
  | String a p', String b s' => if decide (a = b) then startswith p' s' else false
  | String _ _, EmptyString => false
  end.

(** The rest of [s] after the prefix [p], when [s] starts with [p]. *)
Fixpoint strip_prefix (p s : string) : option string :=
  match p, s with
  | EmptyString, _ => Some s
  | String a p', String b s' => if decide (a = b) then strip_prefix p' s' else None
  | String _ _, EmptyString => None
  end.

(** [s.rstrip(...)]: drop the trailing characters that satisfy [p]. *)
Fixpoint rstrip_by (p : ascii → bool) (s : string) : string :=
  match s with
  | EmptyString => EmptyString
  | String d s' =>
      match rstrip_by p s' with
      | EmptyString => if p d then EmptyString else String d EmptyString
      | r => String d r
      end
  end.

(** [s.lstrip(...)]: drop the leading characters that satisfy [p]. *)
Fixpoint lstrip_by (p : ascii → bool) (s : string) : string :=
  match s with
  | EmptyString => EmptyString
  | String d s' => if p d then lstrip_by p s' else s
  end.

(** [s.rstrip(c)] for a one-character set. *)
Definition rstrip (c : ascii) : string → string :=
  rstrip_by (λ d, bool_decide (d = c)).

(** [c.isspace()] on ASCII: tab, line feed, vertical tab, form feed,
    carriage return, the four separators 28 to 31 and the space. *)
Definition is_space (c : ascii) : bool :=
  let n := nat_of_ascii c in
  ((9 <=? n) && (n <=? 13)) || ((28 <=? n) && (n <=? 32)).

(** [s.strip()]. *)
Definition strip (s : string) : string := rstrip_by is_space (lstrip_by is_space s).

(** The ASCII line boundaries of [str.splitlines]: line feed, vertical
    tab, form feed, carriage return and the separators 28 to 30. *)
Definition is_linebreak (c : ascii) : bool :=
  let n := nat_of_ascii c in
  ((10 <=? n) && (n <=? 13)) || ((28 <=? n) && (n <=? 30)).

(** [s.splitlines()]: a carriage return followed by a line feed is one
    boundary, and a final boundary opens no further line. *)
Fixpoint splitlines (s : string) : list string :=
  match s with
  | EmptyString => []
  | String c s' =>
      if is_linebreak c then
        EmptyString ::
          match s' with
          | String d s'' =>
              if bool_decide (c = "013"%char) && bool_decide (d = "010"%char)
              then splitlines s'' else splitlines s'
          | EmptyString => []
          end
      else match splitlines s' with
           | h :: t => String c h :: t
           | [] => [String c EmptyString]
           end
  end.

(** [s.split(c, 1)[1]]: what follows the first [c]; [None] stands for the
    [IndexError] of a string without [c]. *)
Fixpoint after_first (c : ascii) (s : string) : option string :=
  match s with
  | EmptyString => None
  | String d s' => if decide (d = c) then Some s' else after_first c s'
  end.

(** [s.replace(old, new)] for a non-empty [old]: the occurrences are
    replaced from the left and do not overlap; [skip] counts the
    characters of an occurrence still to be dropped. *)
Fixpoint replace_go (old new : string) (skip : nat) (s : string) : string :=
  match s with
  | EmptyString => EmptyString
  | String c s' =>
      match skip with
      | S k => replace_go old new k s'
      | O =>
          if startswith old s
          then String.append new (replace_go old new (String.length old - 1) s')
          else String c (replace_go old new 0 s')
      end
  end.

Definition replace (old new s : string) : string := replace_go old new 0 s.

(** [s.split(c)] for a one-character separator: never empty, one more
    field than there are separators. *)
Fixpoint split (c : ascii) (s : string) : list string :=
  match s with
  | EmptyString => [EmptyString]
  | String d s' =>
      if decide (d = c) then EmptyString :: split c s'
      else match split c s' with
           | h :: t => String d h :: t
           | [] => [String d EmptyString]
           end
  end.

(** The longest prefix of [s] whose characters satisfy [p], and the rest. *)
Fixpoint span (p : ascii → bool) (s : string) : string * string :=
  match s with
  | EmptyString => (EmptyString, EmptyString)
  | String d s' =>
      if p d then let '(h, t) := span p s' in (String d h, t)
      else (EmptyString, s)
  end.

(** [sep.join(l)]. *)
Definition join (sep : string) (l : list string) : string := String.concat sep l.

(** [c.lower()] on ASCII: the 26 capital letters move down by 32. *)
Definition lower_char (c : ascii) : ascii :=
  let n := nat_of_ascii c in
  if (65 <=? n) && (n <=? 90) then ascii_of_nat (n + 32) else c.

(** [s.lower()]. *)
Fixpoint lower (s : string) : string :=
  match s with
  | EmptyString => EmptyString
  | String c s' => String (lower_char c) (lower s')
  end.

(** [sub in s]: [sub] occurs somewhere in [s]. *)
Fixpoint contains (sub s : string) : bool :=
  startswith sub s ||
  match s with
  | EmptyString => false
  | String _ s' => contains sub s'
  end.

(** [s.strip(c)] for a one-character set. *)
Definition strip_char (c : ascii) (s : string) : string :=
  rstrip_by (λ d, bool_decide (d = c)) (lstrip_by (λ d, bool_decide (d = c)) s).

(** [s.split(c, 1)] of a string that holds [c]: what precedes the first
    [c] and what follows it. *)
Fixpoint partition (c : ascii) (s : string) : option (string * string) :=
  match s with
  | EmptyString => None
  | String d s' =>
      if decide (d = c) then Some (EmptyString, s')
      else match partition c s' with
           | Some (k, v) => Some (String d k, v)
           | None => None
           end
  end.

End Py.

(** ** Data model *)

(** One access grant, [{'type': ..., 'isAllowed': ...}]. *)
Record Access := mkAccess {
  acc_type : option string;
  isAllowed : bool
}.

Global Instance Access_eq_dec : EqDecision Access.
Proof. solve_decision. Defined.

(** [{'type': k, 'isAllowed': True}], the only shape the translator emits. *)
Definition allow (k : string) : Access := mkAccess (Some k) true.

(** ** Permission model translator *)

(** The loop state of [convert_permissions_hdfs_to_ozone]. *)
Record PermScan := mkPermScan {
  ozone_accesses : list Access;
  has_read : bool;
  has_write : bool;
  has_execute : bool
}.

Definition perm_scan_init : PermScan := mkPermScan [] false false false.

(** One iteration of [for access in hdfs_accesses]. *)
Definition perm_scan_step (st : PermScan) (access : Access) : PermScan :=
  if decide (acc_type access = Some "read") then
    mkPermScan (ozone_accesses st ++ [allow "read"]) true (has_write st) (has_execute st)
  else if decide (acc_type access = Some "write") then
    mkPermScan (ozone_accesses st ++ [allow "write"]) (has_read st) true (has_execute st)
  else if decide (acc_type access = Some "execute") then
    mkPermScan (ozone_accesses st) (has_read st) (has_write st) true
  else st.

(** The two "Map combinations" tests shared by both translators. *)
Definition map_combinations (r w x : bool) (acc : list Access) : list Access :=
  let acc := if r && x then acc ++ [allow "list"] else acc in
  if w && x then acc ++ [allow "create"; allow "delete"] else acc.

Definition convert_permissions_hdfs_to_ozone (hdfs_accesses : list Access) : list Access :=
  let st := foldl perm_scan_step perm_scan_init hdfs_accesses in
  map_combinations (has_read st) (has_write st) (has_execute st) (ozone_accesses st).

Definition convert_posix_to_ozone_permissions (posix_perms : string) : list Access :=
  let r := Py.char_in "r" posix_perms in
  let w := Py.char_in "w" posix_perms in
  let x := Py.char_in "x" posix_perms in
  let accesses := if r then [allow "read"] else [] in
  let accesses := if w then accesses ++ [allow "write"] else accesses in
  map_combinations r w x accesses.

(** The permission kinds of a grant list, and [grants k l]: some grant of
    the list has kind [k]. *)
Definition kinds (l : list Access) : list string := omap acc_type l.

Definition grants (k : string) (l : list Access) : Prop := k ∈ kinds l.

Global Instance grants_dec k l : Decision (grants k l).
Proof. unfold grants. apply _. Defined.

(** ** Policies *)

(** A resource descriptor, e.g. [{'values': [...], 'isRecursive': True}]. *)
Record Resource := mkResource {
  r_values : option (list string);
  r_isExcludes : option bool;
  r_isRecursive : option bool
}.

Global Instance Resource_eq_dec : EqDecision Resource.
Proof. solve_decision. Defined.

(** [{'values': vs}] *)
Definition res_values (vs : list string) : Resource := mkResource (Some vs) None None.

(** [{'values': vs, 'isRecursive': True}] *)
Definition res_recursive (vs : list string) : Resource := mkResource (Some vs) None (Some true).

Record PolicyItem := mkPolicyItem {
  i_accesses : option (list Access);
  i_users : option (list string);
  i_groups : option (list string);
  i_roles : option (list string)
}.

Global Instance PolicyItem_eq_dec : EqDecision PolicyItem.
Proof. solve_decision. Defined.

(** A Ranger policy as exported or imported; [None] is an absent key. *)
Record Policy := mkPolicy {
  p_id : option nat;
  p_guid : option string;
  p_version : option nat;
  p_service : option string;
  p_name : option string;
  p_description : option string;
  p_resources : option (gmap string Resource);
  p_policyItems : option (list PolicyItem)
}.

Global Instance Policy_eq_dec : EqDecision Policy.
Proof. solve_decision. Defined.

(** [policy.get('resources', {}).get(kind, {}).get('values', [])] *)
Definition resource_values (kind : string) (policy : Policy) : list string :=
  match p_resources policy with
  | Some resources =>
      match resources !! kind with
      | Some r => default [] (r_values r)
      | None => []
      end
  | None => []
  end.

Definition path_values : Policy → list string := resource_values "path".

(** [policy.get('policyItems', [])] *)
Definition policy_items (policy : Policy) : list PolicyItem :=
  default [] (p_policyItems policy).

(** Truthiness of a value that is [None] or a [str]. *)
Definition truthy (o : option string) : bool :=
  match o with
  | Some (String _ _) => true
  | _ => false
  end.

(** ** Path classifier *)

Definition not_slash (c : ascii) : bool := bool_decide (c ≠ "/"%char).

(** The regular expression dot: any character but a line feed. *)
Definition re_dot (c : ascii) : bool := bool_decide (c ≠ "010"%char).

(** [re.match(r'/data/([^/]+)', hdfs_path)], group 1. *)
Definition extract_fid_from_path (hdfs_path : string) : option string :=
  match Py.strip_prefix "/data/" hdfs_path with
  | Some rest =>
      match Py.span not_slash rest with
      | (String c fid, _) => Some (String c fid)
      | (EmptyString, _) => None
      end
  | None => None
  end.

(** [get_hdfs_policies_for_fid]: the policies with a path that starts with
    ["/data/" + fid]. *)
Definition get_hdfs_policies_for_fid (fid : string) (hdfs_policies : list Policy) : list Policy :=
  let fid_dir := "/data/" +:+ fid in
  filter (λ policy, existsb (Py.startswith fid_dir) (path_values policy) = true) hdfs_policies.

(** The three result lists of [categorize_hdfs_policies]. *)
Record Categories := mkCategories {
  volume_policies : list Policy;
  bucket_policies : list Policy;
  key_policies : list Policy
}.

(** The level a path implies, by the number of its segments:
    [len(path.rstrip('/').split('/'))] is 3 for a volume, 4 for a bucket,
    5 or more for a key; a shorter path implies none. *)
Inductive Level := VOLUME | BUCKET | KEY.

Global Instance Level_eq_dec : EqDecision Level.
Proof. solve_decision. Defined.

Definition path_level (path : string) : option Level :=
  let parts := Py.split "/" (Py.rstrip "/" path) in
  if length parts =? 3 then Some VOLUME
  else if length parts =? 4 then Some BUCKET
  else if 5 <=? length parts then Some KEY
  else None.

Global Arguments path_level : simpl never.

(** [for path in paths] of [categorize_hdfs_policies]; each branch that
    appends ends the loop ([break]). *)
Fixpoint categorize_paths (policy : Policy) (paths : list string) (st : Categories) : Categories :=
  match paths with
  | [] => st
  | path :: paths' =>
      match path_level path with
      | Some VOLUME =>
          mkCategories (volume_policies st ++ [policy]) (bucket_policies st) (key_policies st)
      | Some BUCKET =>
          mkCategories (volume_policies st) (bucket_policies st ++ [policy]) (key_policies st)
      | Some KEY =>
          mkCategories (volume_policies st) (bucket_policies st) (key_policies st ++ [policy])
      | None => categorize_paths policy paths' st
      end
  end.

Definition categorize_hdfs_policies (hdfs_policies : list Policy) : Categories :=
  foldl (λ st policy, categorize_paths policy (path_values policy) st)
        (mkCategories [] [] []) hdfs_policies.

(** [extract_bucket_and_key_from_path]: [re.match] of the pattern
    [/data/{fid}/BUCKET/KEY] on [hdfs_path.rstrip('/')], where [BUCKET] is
    the group [[^/]+] and [KEY] a group of dots, as many as match.  The
    identifier is spliced into the pattern as it is; the embedding reads it
    literally, which is what the pattern does for an identifier made of
    letters, digits, underscores and dashes. *)
Definition extract_bucket_and_key_from_path (hdfs_path fid : string)
  : option string * option string :=
  match Py.strip_prefix ("/data/" +:+ fid +:+ "/") (Py.rstrip "/" hdfs_path) with
  | Some rest =>
      match Py.span not_slash rest with
      | (String c b, String "/" tail) =>
          let bucket := String c b in
          let g2 := fst (Py.span re_dot tail) in
          let key := if decide (g2 = EmptyString) then "*" else g2 in
          (Some bucket, Some key)
      | _ => (None, None)
      end
  | None => (None, None)
  end.

(** ** Policy synthesizer *)

Definition read_item (users groups roles : list string) : PolicyItem :=
  mkPolicyItem (Some [allow "read"]) (Some users) (Some groups) (Some roles).

Definition create_ozone_volume_policy (fid : string) (users groups roles : list string)
    (ozone_service : string) : Policy :=
  mkPolicy None None None (Some ozone_service) (Some (fid +:+ "_volume_policy")) None
    (Some {[ "volume" := res_values [fid] ]})
    (Some [read_item users groups roles]).

Definition create_ozone_bucket_policy (fid : string) (buckets users groups roles : list string)
    (ozone_service : string) : Policy :=
  mkPolicy None None None (Some ozone_service) (Some (fid +:+ "_bucket_policy")) None
    (Some (<[ "bucket" := res_values buckets ]> {[ "volume" := res_values [fid] ]}))
    (Some [read_item users groups roles]).

Definition convert_item (item : PolicyItem) : PolicyItem :=
  mkPolicyItem
    (Some (convert_permissions_hdfs_to_ozone (default [] (i_accesses item))))
    (Some (default [] (i_users item)))
    (Some (default [] (i_groups item)))
    (Some (default [] (i_roles item))).

Definition create_ozone_key_policy (fid bucket key : string) (hdfs_policy : Policy)
    (ozone_service : string) : Policy :=
  mkPolicy None None None (Some ozone_service)
    (Some (fid +:+ "_" +:+ bucket +:+ "_" +:+ key +:+ "_key_policy")) None
    (Some (<[ "key" := res_recursive [key] ]>
            (<[ "bucket" := res_values [bucket] ]> {[ "volume" := res_values [fid] ]})))
    (match p_policyItems hdfs_policy with
     | Some items => Some (convert_item <$> items)
     | None => None
     end).

(** The principals named by the items of the given policies:
    [all_users.update(item.get('users', []))], and so on. *)
Definition collect_principals (field : PolicyItem → option (list string))
    (hdfs_policies : list Policy) : gset string :=
  foldl (λ acc policy,
           foldl (λ acc item, acc ∪ list_to_set (default [] (field item)))
                 acc (policy_items policy))
        ∅ hdfs_policies.

(** The bucket names of the paths of the given policies:
    [if bucket: all_buckets.add(bucket)]. *)
Definition collect_buckets (fid : string) (policies : list Policy) : gset string :=
  foldl (λ acc policy,
           foldl (λ acc path,
                    match extract_bucket_and_key_from_path path fid with
                    | (Some bucket, _) => if truthy (Some bucket) then acc ∪ {[ bucket ]} else acc
                    | (None, _) => acc
                    end)
                 acc (path_values policy))
        ∅ policies.

(** The key-level loop of [convert_hdfs_policies_for_fid]. *)
Definition key_level_policies (fid : string) (policies : list Policy)
    (ozone_service : string) : list Policy :=
  policy ← policies;
  path ← path_values policy;
  match extract_bucket_and_key_from_path path fid with
  | (Some bucket, Some key) =>
      if truthy (Some bucket) && truthy (Some key)
      then [create_ozone_key_policy fid bucket key policy ozone_service]
      else []
  | _ => []
  end.

Definition convert_hdfs_policies_for_fid (fid : string) (hdfs_policies : list Policy)
    (ozone_service : string) : list Policy :=
  let cats := categorize_hdfs_policies hdfs_policies in
  let all_users := collect_principals i_users hdfs_policies in
  let all_groups := collect_principals i_groups hdfs_policies in
  let all_roles := collect_principals i_roles hdfs_policies in
  let ozone_policies :=
    if bool_decide (all_users ≠ ∅ ∨ all_groups ≠ ∅ ∨ all_roles ≠ ∅) then
      [create_ozone_volume_policy fid (elements all_users) (elements all_groups)
         (elements all_roles) ozone_service]
    else [] in
  let all_buckets := collect_buckets fid (bucket_policies cats ++ key_policies cats) in
  let ozone_policies :=
    if bool_decide (all_buckets ≠ ∅) then
      ozone_policies ++
      [create_ozone_bucket_policy fid (elements all_buckets) (elements all_users)
         (elements all_groups) (elements all_roles) ozone_service]
    else ozone_policies in
  ozone_policies ++ key_level_policies fid (key_policies cats) ozone_service.

(** ** ACL fallback resolver *)

(** What the run reads from its configuration and from the legacy
    filesystem: the [FID_DIR_PREFIX] entry of the configuration, the answer
    of [is_hdfs_acl_fallback_enabled], and the outputs of [get_hdfs_facl]
    (empty on any failure) and [get_hdfs_subdirs]. *)
Record Env := mkEnv {
  FID_DIR_PREFIX : option string;
  is_hdfs_acl_fallback_enabled : bool;
  get_hdfs_facl : string → string;
  get_hdfs_subdirs : string → list string
}.

(** [if x not in l: l.append(x)] *)
Definition append_new (x : string) (l : list string) : list string :=
  if decide (x ∈ l) then l else l ++ [x].

Definition nonempty (s : string) : bool :=
  match s with
  | String _ _ => true
  | EmptyString => false
  end.

(** [line.split(":", 1)[1].strip()] *)
Definition header_value (line : string) : string :=
  Py.strip (default EmptyString (Py.after_first ":" line)).

(** The loop state of [parse_hdfs_facl]. *)
Record FaclScan := mkFaclScan {
  fs_users : list string;
  fs_groups : list string;
  fs_owner : string;
  fs_primary_group : string
}.

Definition parse_hdfs_facl_step (st : FaclScan) (raw : string) : FaclScan :=
  let line := Py.strip raw in
  if negb (nonempty line) then st
  else if Py.startswith "# owner:" line then
    mkFaclScan (fs_users st) (fs_groups st) (header_value line) (fs_primary_group st)
  else if Py.startswith "# group:" line then
    mkFaclScan (fs_users st) (fs_groups st) (fs_owner st) (header_value line)
  else if Py.startswith "user:" line then
    match Py.split ":" line with
    | _ :: user :: perms :: _ =>
        if Py.char_in "r" perms then
          if nonempty user then
            mkFaclScan (append_new user (fs_users st)) (fs_groups st)
                       (fs_owner st) (fs_primary_group st)
          else if nonempty (fs_owner st) then
            mkFaclScan (append_new (fs_owner st) (fs_users st)) (fs_groups st)
                       (fs_owner st) (fs_primary_group st)
          else st
        else st
    | _ => st
    end
  else if Py.startswith "group:" line then
    match Py.split ":" line with
    | _ :: group :: perms :: _ =>
        if Py.char_in "r" perms then
          if nonempty group then
            mkFaclScan (fs_users st) (append_new group (fs_groups st))
                       (fs_owner st) (fs_primary_group st)
          else if nonempty (fs_primary_group st) then
            mkFaclScan (fs_users st) (append_new (fs_primary_group st) (fs_groups st))
                       (fs_owner st) (fs_primary_group st)
          else st
        else st
    | _ => st
    end
  else st.

(** [parse_hdfs_facl]: the users and the groups with a read bit. *)
Definition parse_hdfs_facl (facl_output : string) : list string * list string :=
  let st := foldl parse_hdfs_facl_step (mkFaclScan [] [] EmptyString EmptyString)
                  (Py.splitlines (Py.strip facl_output)) in
  (fs_users st, fs_groups st).

(** First pass of [parse_hdfs_facl_full_permissions]: owner and primary
    group. *)
Definition facl_owner_step (st : string * string) (raw : string) : string * string :=
  let line := Py.strip raw in
  if Py.startswith "# owner:" line then (header_value line, snd st)
  else if Py.startswith "# group:" line then (fst st, header_value line)
  else st.

(** The state of its second pass. *)
Record FullScan := mkFullScan {
  permission_items : list PolicyItem;
  processed_users : gset string;
  processed_groups : gset string
}.

Definition facl_full_step (owner primary_group : string) (st : FullScan) (raw : string)
  : FullScan :=
  let line := Py.strip raw in
  if negb (nonempty line) || Py.startswith "#" line then st
  else if Py.startswith "user:" line then
    match Py.split ":" line with
    | _ :: name :: perms :: _ =>
        let user := if nonempty name then name else owner in
        if nonempty user && bool_decide (user ∉ processed_users st) then
          match convert_posix_to_ozone_permissions perms with
          | [] => st
          | accesses =>
              mkFullScan
                (permission_items st ++
                   [mkPolicyItem (Some accesses) (Some [user]) (Some []) (Some [])])
                (processed_users st ∪ {[ user ]}) (processed_groups st)
          end
        else st
    | _ => st
    end
  else if Py.startswith "group:" line then
    match Py.split ":" line with
    | _ :: name :: perms :: _ =>
        let group := if nonempty name then name else primary_group in
        if nonempty group && bool_decide (group ∉ processed_groups st) then
          match convert_posix_to_ozone_permissions perms with
          | [] => st
          | accesses =>
              mkFullScan
                (permission_items st ++
                   [mkPolicyItem (Some accesses) (Some []) (Some [group]) (Some [])])
                (processed_users st) (processed_groups st ∪ {[ group ]})
          end
        else st
    | _ => st
    end
  else st.

Definition parse_hdfs_facl_full_permissions (facl_output : string) : list PolicyItem :=
  let lines := Py.splitlines (Py.strip facl_output) in
  let '(owner, primary_group) := foldl facl_owner_step (EmptyString, EmptyString) lines in
  permission_items (foldl (facl_full_step owner primary_group) (mkFullScan [] ∅ ∅) lines).

(** One round of the loop "Create Key Policies for each bucket". *)
Definition acl_key_policy (env : Env) (fid fid_path ozone_service bucket : string)
  : list Policy :=
  let bucket_path := fid_path +:+ "/" +:+ bucket in
  let bucket_facl := get_hdfs_facl env bucket_path in
  if nonempty bucket_facl then
    match parse_hdfs_facl_full_permissions bucket_facl with
    | [] => []
    | items =>
        [mkPolicy None None None (Some ozone_service)
           (Some (fid +:+ "_" +:+ bucket +:+ "_key_policy_from_hdfs_acls"))
           (Some ("Created from HDFS ACLs for " +:+ bucket_path))
           (Some (<[ "key" := res_recursive ["*"] ]>
                   (<[ "bucket" := res_values [bucket] ]>
                      {[ "volume" := res_values [fid] ]})))
           (Some items)]
    end
  else [].

Definition create_ozone_policies_from_hdfs_acls (env : Env) (fid ozone_service : string)
  : list Policy :=
  let fid_path := default "/data/" (FID_DIR_PREFIX env) +:+ fid in
  let volume_facl := get_hdfs_facl env fid_path in
  if negb (nonempty volume_facl) then []
  else
    let '(volume_users, volume_groups) := parse_hdfs_facl volume_facl in
    match volume_users, volume_groups with
    | [], [] => []
    | _, _ =>
        let volume_policy :=
          mkPolicy None None None (Some ozone_service)
            (Some (fid +:+ "_volume_policy_from_hdfs_acls"))
            (Some ("Created from HDFS ACLs for " +:+ fid_path))
            (Some {[ "volume" := res_values [fid] ]})
            (Some [read_item volume_users volume_groups []]) in
        match get_hdfs_subdirs env fid_path with
        | [] => [volume_policy]
        | buckets =>
            let bucket_policy :=
              mkPolicy None None None (Some ozone_service)
                (Some (fid +:+ "_bucket_policy_from_hdfs_acls"))
                (Some ("Created from HDFS ACLs for buckets: " +:+ Py.join ", " buckets))
                (Some (<[ "bucket" := res_values buckets ]>
                         {[ "volume" := res_values [fid] ]}))
                (Some [read_item volume_users volume_groups []]) in
            [volume_policy; bucket_policy] ++
            (buckets ≫= acl_key_policy env fid fid_path ozone_service)
        end
    end.

(** ** The run over all root identifiers *)

(** Truthiness of a list argument whose default is [None]: the absent
    argument and the empty list are both false. *)
Definition list_truthy {A} (l : list A) : bool :=
  match l with
  | [] => false
  | _ :: _ => true
  end.

(** The set [fids] built by the loops of [get_fids_from_hdfs_policies]. *)
Definition collect_fids (hdfs_policies : list Policy) : gset string :=
  foldl (λ acc policy,
           foldl (λ acc hdfs_path,
                    match extract_fid_from_path hdfs_path with
                    | Some fid => if truthy (Some fid) then acc ∪ {[ fid ]} else acc
                    | None => acc
                    end)
                 acc (path_values policy))
        ∅ hdfs_policies.

Definition get_fids_from_hdfs_policies (hdfs_policies : list Policy)
    (include_fids exclude_fids : list string) : list string :=
  let fid_list := elements (collect_fids hdfs_policies) in
  let fid_list :=
    if list_truthy exclude_fids then filter (λ fid, fid ∉ exclude_fids) fid_list
    else fid_list in
  if list_truthy include_fids then filter (λ fid, fid ∈ include_fids) fid_list
  else fid_list.

(** [sorted(list(fids_to_process))] of [convert_all_hdfs_policies]. *)
Definition fids_to_process (env : Env) (hdfs_policies : list Policy)
    (include_fids exclude_fids : list string) : list string :=
  let ranger_fids := get_fids_from_hdfs_policies hdfs_policies include_fids exclude_fids in
  let fids : gset string := list_to_set ranger_fids in
  let fids :=
    if list_truthy include_fids && is_hdfs_acl_fallback_enabled env
    then fids ∪ list_to_set include_fids else fids in
  let fids := if list_truthy exclude_fids then fids ∖ list_to_set exclude_fids else fids in
  merge_sort String.le (elements fids).

(** The two sources of target policies, recorded when the run calls them. *)
Inductive Call :=
  | Call_convert_hdfs_policies_for_fid (fid : string)
  | Call_create_ozone_policies_from_hdfs_acls (fid : string).

Global Instance Call_eq_dec : EqDecision Call.
Proof. solve_decision. Defined.

(** The accumulator of the run and the calls made so far. *)
Record Run := mkRun {
  all_ozone_policies : list Policy;
  calls : list Call
}.

(** The body of [for fid in fids_to_process]. *)
Definition process_fid (env : Env) (hdfs_policies : list Policy) (ozone_service : string)
    (st : Run) (fid : string) : Run :=
  match get_hdfs_policies_for_fid fid hdfs_policies with
  | [] =>
      if is_hdfs_acl_fallback_enabled env then
        let acl_policies := create_ozone_policies_from_hdfs_acls env fid ozone_service in
        mkRun (if list_truthy acl_policies then all_ozone_policies st ++ acl_policies
               else all_ozone_policies st)
              (calls st ++ [Call_create_ozone_policies_from_hdfs_acls fid])
      else st
  | fid_policies =>
      mkRun (all_ozone_policies st ++
               convert_hdfs_policies_for_fid fid fid_policies ozone_service)
            (calls st ++ [Call_convert_hdfs_policies_for_fid fid])
  end.

(** [convert_all_hdfs_policies]: the list it returns is the field
    [all_ozone_policies] of the final state. *)
Definition convert_all_hdfs_policies (env : Env) (hdfs_policies : list Policy)
    (ozone_service : string) (include_fids exclude_fids : list string) : Run :=
  foldl (process_fid env hdfs_policies ozone_service) (mkRun [] [])
        (fids_to_process env hdfs_policies include_fids exclude_fids).

(** What a recorded call returned. *)
Definition call_result (env : Env) (hdfs_policies : list Policy) (ozone_service : string)
    (c : Call) : list Policy :=
  match c with
  | Call_convert_hdfs_policies_for_fid fid =>
      convert_hdfs_policies_for_fid fid (get_hdfs_policies_for_fid fid hdfs_policies)
        ozone_service
  | Call_create_ozone_policies_from_hdfs_acls fid =>
      create_ozone_policies_from_hdfs_acls env fid ozone_service
  end.

(** ** Principal-preserving cloner *)

(** The class [[^/\s]] of the URL pattern. *)
Definition url_name_char (c : ascii) : bool := not_slash c && negb (Py.is_space c).

(** The alternation [(raw|managed|work)]. *)
Definition match_layer (s : string) : option (string * string) :=
  match Py.strip_prefix "raw" s with
  | Some r => Some ("raw", r)
  | None =>
      match Py.strip_prefix "managed" s with
      | Some r => Some ("managed", r)
      | None =>
          match Py.strip_prefix "work" s with
          | Some r => Some ("work", r)
          | None => None
          end
      end
  end.

(** The pattern [hdfs://HOST/data/FID/LAYER/hive/DB] tried at the head of
    [s]: the groups [FID], [LAYER] and [DB]. *)
Definition hdfs_pattern_at (s : string) : option (string * string * string) :=
  r0 ← Py.strip_prefix "hdfs://" s;
  let '(host, r1) := Py.span not_slash r0 in
  if negb (nonempty host) then None else
  r2 ← Py.strip_prefix "/data/" r1;
  let '(fid, r3) := Py.span not_slash r2 in
  if negb (nonempty fid) then None else
  r4 ← Py.strip_prefix "/" r3;
  '(layer, r5) ← match_layer r4;
  r6 ← Py.strip_prefix "/hive/" r5;
  let '(db_name, _) := Py.span url_name_char r6 in
  if negb (nonempty db_name) then None else Some (fid, layer, db_name).

(** [re.search(hdfs_pattern, url)]: the leftmost position that matches. *)
Fixpoint hdfs_pattern_search (url : string) : option (string * string * string) :=
  match hdfs_pattern_at url with
  | Some m => Some m
  | None =>
      match url with
      | EmptyString => None
      | String _ url' => hdfs_pattern_search url'
      end
  end.

(** The body of [for url in original_urls]. *)
Definition transform_url (ozone_service_id raw_url : string) : string :=
  let url := Py.strip raw_url in
  match hdfs_pattern_search url with
  | Some (fid, layer, db_name) =>
      "ofs://" +:+ ozone_service_id +:+ "/" +:+ fid +:+ "/" +:+ layer +:+ "/hive/" +:+ db_name
  | None =>
      Py.replace "/data/" "/"
        (Py.replace "hdfs://" ("ofs://" +:+ ozone_service_id +:+ "/") url)
  end.

(** The resources of the clone and the name fragments collected so far. *)
Record CloneState := mkCloneState {
  cs_resources : gmap string Resource;
  new_name_parts : list string
}.

(** [resource['values'] = vs] *)
Definition set_values (r : Resource) (vs : list string) : Resource :=
  mkResource (Some vs) (r_isExcludes r) (r_isRecursive r).

(** [resources[kind]['values']] when both keys are present. *)
Definition declared_values (kind : string) (resources : gmap string Resource)
  : option (list string) :=
  match resources !! kind with
  | Some r => r_values r
  | None => None
  end.

Definition clone_database (ozone_prefix : string) (st : CloneState) : CloneState :=
  match cs_resources st !! "database" with
  | Some database =>
      match r_values database with
      | Some original_db_values =>
          let new_db_values := (λ db, ozone_prefix +:+ "_" +:+ db) <$> original_db_values in
          mkCloneState
            (<[ "database" := set_values database new_db_values ]> (cs_resources st))
            (new_name_parts st ++ ["db=" +:+ Py.join "," new_db_values])
      | None => st
      end
  | None => st
  end.

Definition clone_url (ozone_service_id : string) (st : CloneState) : CloneState :=
  match cs_resources st !! "url" with
  | Some url_resource =>
      match r_values url_resource with
      | Some original_urls =>
          let new_urls := transform_url ozone_service_id <$> original_urls in
          mkCloneState
            (<[ "url" := set_values url_resource new_urls ]> (cs_resources st))
            (match new_urls with
             | u :: _ => new_name_parts st ++ ["url=" +:+ u]
             | [] => new_name_parts st
             end)
      | None => st
      end
  | None => st
  end.

(** The table and the column handlers: "skip wildcards". *)
Definition clone_skip_wildcard (kind tag : string) (st : CloneState) : CloneState :=
  match declared_values kind (cs_resources st) with
  | Some vs =>
      if list_truthy vs && bool_decide (vs ≠ ["*"])
      then mkCloneState (cs_resources st) (new_name_parts st ++ [tag +:+ "=" +:+ Py.join "," vs])
      else st
  | None => st
  end.

(** The udf handler: "keep wildcards". *)
Definition clone_udf (st : CloneState) : CloneState :=
  match declared_values "udf" (cs_resources st) with
  | Some udf_values =>
      if list_truthy udf_values
      then mkCloneState (cs_resources st)
             (new_name_parts st ++ ["udf=" +:+ Py.join "," udf_values])
      else st
  | None => st
  end.

(** The resources and the name fragments at the end of [clone_hive_policy]. *)
Definition clone_resources (resources : gmap string Resource)
    (ozone_prefix ozone_service_id : string) : CloneState :=
  clone_udf
    (clone_skip_wildcard "column" "col"
       (clone_skip_wildcard "table" "tbl"
          (clone_url ozone_service_id
             (clone_database ozone_prefix (mkCloneState resources []))))).

Definition clone_hive_policy (policy : Policy) (ozone_prefix ozone_service_id : string)
  : Policy :=
  let original_name := default EmptyString (p_name policy) in
  let st := clone_resources (default ∅ (p_resources policy)) ozone_prefix ozone_service_id in
  mkPolicy None None None (p_service policy)
    (Some (if list_truthy (new_name_parts st) then Py.join "," (new_name_parts st)
           else ozone_prefix +:+ "_" +:+ original_name))
    (Some ("Cloned from '" +:+ original_name +:+ "' for Ozone migration with prefix "
             +:+ ozone_prefix))
    (match p_resources policy with
     | Some _ => Some (cs_resources st)
     | None => None
     end)
    (p_policyItems policy).


(** ** Policy filter and selector *)

(** [is_default_policy]: the name holds [all], or a database is [default]
    or [information_schema], whatever the case of the letters. *)
Definition is_default_policy (policy : Policy) : bool :=
  let policy_name := Py.lower (default EmptyString (p_name policy)) in
  if Py.contains "all" policy_name then true
  else
    let db_values := resource_values "database" policy in
    if bool_decide ("default" ∈ Py.lower <$> db_values) then true
    else if bool_decide ("information_schema" ∈ Py.lower <$> db_values) then true
    else false.

(** [has_url_resource]: [bool(url_values)]. *)
Definition has_url_resource (policy : Policy) : bool :=
  list_truthy (resource_values "url" policy).

(** The pattern [ofs://HOST/FID/LAYER/hive/DB] tried at the head of [s]. *)
Definition ofs_pattern_at (s : string) : option (string * string * string) :=
  r0 ← Py.strip_prefix "ofs://" s;
  let '(host, r1) := Py.span not_slash r0 in
  if negb (nonempty host) then None else
  r2 ← Py.strip_prefix "/" r1;
  let '(fid, r3) := Py.span not_slash r2 in
  if negb (nonempty fid) then None else
  r4 ← Py.strip_prefix "/" r3;
  '(layer, r5) ← match_layer r4;
  r6 ← Py.strip_prefix "/hive/" r5;
  let '(db_name, _) := Py.span url_name_char r6 in
  if negb (nonempty db_name) then None else Some (fid, layer, db_name).

(** [re.search(ofs_pattern, url)]. *)
Fixpoint ofs_pattern_search (url : string) : option (string * string * string) :=
  match ofs_pattern_at url with
  | Some m => Some m
  | None =>
      match url with
      | EmptyString => None
      | String _ url' => ofs_pattern_search url'
      end
  end.

(** The body of [for url in url_values] of [matches_database_filter]: the
    database name of a URL of one of the two shapes joins [db_values]. *)
Definition url_database_step (db_values : list string) (url : string) : list string :=
  match hdfs_pattern_search url with
  | Some (_, _, db_name) => append_new (Py.lower db_name) db_values
  | None =>
      match ofs_pattern_search url with
      | Some (_, _, db_name) => append_new (Py.lower db_name) db_values
      | None => db_values
      end
  end.

(** [db_values] at the end of that loop: the declared databases in lower
    case, then the databases read off the URLs. *)
Definition effective_databases (policy : Policy) : list string :=
  foldl url_database_step (Py.lower <$> resource_values "database" policy)
        (resource_values "url" policy).

(** [any(db in names for db in db_values)] with [names] in lower case. *)
Definition any_in (names db_values : list string) : bool :=
  existsb (λ db, bool_decide (db ∈ Py.lower <$> names)) db_values.

Definition matches_database_filter (policy : Policy)
    (include_databases exclude_databases : list string) : bool :=
  let db_values := effective_databases policy in
  if negb (list_truthy db_values) then
    if list_truthy include_databases then false else true
  else if list_truthy exclude_databases && any_in exclude_databases db_values then false
  else if list_truthy include_databases && negb (any_in include_databases db_values) then false
  else true.

(** [filter_hive_policies]: the loop with its two [continue]s. *)
Definition filter_hive_policies (policies : list Policy)
    (include_databases exclude_databases : list string) : list Policy :=
  foldl (λ filtered policy,
           if is_default_policy policy then filtered
           else if negb (matches_database_filter policy include_databases exclude_databases)
           then filtered
           else filtered ++ [policy])
        [] policies.

(** [get_policies_for_cleanup]: [(policies_to_delete, policies_to_keep)]. *)
Definition cleanup_step (include_databases : list string)
    (st : list Policy * list Policy) (policy : Policy) : list Policy * list Policy :=
  let '(policies_to_delete, policies_to_keep) := st in
  if is_default_policy policy then (policies_to_delete, policies_to_keep ++ [policy])
  else if has_url_resource policy then (policies_to_delete, policies_to_keep ++ [policy])
  else if list_truthy include_databases then
    if matches_database_filter policy include_databases []
    then (policies_to_delete ++ [policy], policies_to_keep)
    else (policies_to_delete, policies_to_keep ++ [policy])
  else (policies_to_delete ++ [policy], policies_to_keep).

Definition get_policies_for_cleanup (policies : list Policy) (include_databases : list string)
  : list Policy * list Policy :=
  foldl (cleanup_step include_databases) ([], []) policies.

(** [create_cloned_hive_policies]: every policy is cloned; the [except]
    branch of the loop is for exceptions the cloning of a well-formed policy
    does not raise. *)
Definition create_cloned_hive_policies (policies : list Policy)
    (ozone_prefix ozone_service_id : string) : list Policy :=
  foldl (λ cloned policy, cloned ++ [clone_hive_policy policy ozone_prefix ozone_service_id])
        [] policies.

(** ** Submission to the policy store *)

(** [{'success': ..., 'failed': ...}] *)
Record Results := mkResults {
  success : nat;
  failed : nat
}.

Section policy_store.

(** The Ranger service: its state, and the answers of [delete_policy] and
    [import_policy], which are [True] on the HTTP status of success and
    [False] on any other status or exception. *)
Context {Store : Type}.
Variable delete_policy : Store → nat → bool * Store.
Variable import_policy : Store → Policy → bool * Store.

Definition count_result (ok : bool) (results : Results) : Results :=
  if ok then mkResults (S (success results)) (failed results)
  else mkResults (success results) (S (failed results)).

(** The body of the loop of [cleanup_hive_policies]: a policy without a
    truthy id is counted as failed and skipped. *)
Definition cleanup_policy_step (st : Results * Store) (policy : Policy) : Results * Store :=
  let '(results, store) := st in
  match p_id policy with
  | Some (S n) =>
      let '(ok, store') := delete_policy store (S n) in
      (count_result ok results, store')
  | _ => (count_result false results, store)
  end.

Definition cleanup_hive_policies (store : Store) (policies_to_delete : list Policy)
  : Results * Store :=
  foldl cleanup_policy_step (mkResults 0 0, store) policies_to_delete.

Definition import_policy_step (st : Results * Store) (policy : Policy) : Results * Store :=
  let '(results, store) := st in
  let '(ok, store') := import_policy store policy in
  (count_result ok results, store').

Definition import_policies (store : Store) (policies : list Policy) : Results * Store :=
  foldl import_policy_step (mkResults 0 0, store) policies.

End policy_store.

(** ** Lists read from files *)

(** The lines [load_list_from_file] keeps: stripped, not empty, not a
    comment. *)
Definition kept_lines (content : string) : list string :=
  filter (λ line, nonempty line = true ∧ Py.startswith "#" line = false)
         (Py.strip <$> Py.split "010" content).

(** [load_list_from_file] on the text read from the file: the kept lines
    joined by a space, split at the commas, each item stripped, the empty
    ones dropped. *)
Definition load_list_from_content (content : string) : list string :=
  let combined := Py.join " " (kept_lines content) in
  filter (λ item, nonempty item = true) (Py.strip <$> Py.split "," combined).

(** [load_list_from_file]: [None] stands for a file that cannot be read,
    which gives the empty list. *)
Definition load_list_from_file (file : option string) : list string :=
  match file with
  | Some content => load_list_from_content content
  | None => []
  end.

(** ** The configuration file *)

(** The body of the loop of [load_config] on one line of the file: a line
    that, stripped, is not empty, is no comment and holds an equals sign
    sets the key before the first equals sign to what follows it, stripped
    of white space and then of double quotes. *)
Definition load_config_step (config : gmap string string) (raw : string)
  : gmap string string :=
  let line := Py.strip raw in
  if nonempty line && negb (Py.startswith "#" line) then
    match Py.partition "=" line with
    | Some (key, value) => <[ Py.strip key := Py.strip_char "034" (Py.strip value) ]> config
    | None => config
    end
  else config.

(** [load_config] on the lines the file yields; [None] stands for a file
    that cannot be read, at which the program exits. *)
Definition load_config (file : option (list string)) : option (gmap string string) :=
  match file with
  | Some lines => Some (foldl load_config_step ∅ lines)
  | None => None
  end.
(** ** Vocabulary of the properties *)

(** What one input grant makes the loop of
    [convert_permissions_hdfs_to_ozone] append. *)
Definition copied (access : Access) : list Access :=
  if decide (acc_type access = Some "read") then [allow "read"]
  else if decide (acc_type access = Some "write") then [allow "write"]
  else [].

Definition has_kind (k : string) (l : list Access) : bool := bool_decide (grants k l).

(** The derived-permission table: [out] is a translation of an input in
    which read, write and execute are present as [r], [w] and [x] say. *)
Definition translation_table (r w x : Prop) (out : list Access) : Prop :=
  (grants "read" out ↔ r) ∧
  (grants "write" out ↔ w) ∧
  (grants "list" out ↔ r ∧ x) ∧
  (grants "create" out ↔ w ∧ x) ∧
  (grants "delete" out ↔ w ∧ x) ∧
  (¬ grants "execute" out) ∧
  (¬ r ∧ ¬ w → out = []).

(** The grants whose kind the translator knows. *)
Definition known_kind (access : Access) : Prop :=
  acc_type access ∈ [Some "read"; Some "write"; Some "execute"].

Global Instance known_kind_dec access : Decision (known_kind access).
Proof. unfold known_kind. apply _. Defined.

(** The characters of [s] that satisfy [p]. *)
Fixpoint keep_chars (p : ascii → bool) (s : string) : string :=
  match s with
  | EmptyString => EmptyString
  | String c s' => if p c then String c (keep_chars p s') else keep_chars p s'
  end.

Definition rwx_char (c : ascii) : bool :=
  bool_decide (c = "r"%char) || bool_decide (c = "w"%char) || bool_decide (c = "x"%char).

(** The same grants with their [isAllowed] flags replaced. *)
Definition with_flags (flag : Access → bool) (l : list Access) : list Access :=
  (λ a, mkAccess (acc_type a) (flag a)) <$> l.

(** The partition of [categorize_hdfs_policies] that holds a level. *)
Definition partition_of (level : Level) (c : Categories) : list Policy :=
  match level with
  | VOLUME => volume_policies c
  | BUCKET => bucket_policies c
  | KEY => key_policies c
  end.

(** What the inner loop does with a policy whose first implied level is
    [o]. *)
Definition assign (o : option Level) (policy : Policy) (st : Categories) : Categories :=
  match o with
  | Some VOLUME =>
      mkCategories (volume_policies st ++ [policy]) (bucket_policies st) (key_policies st)
  | Some BUCKET =>
      mkCategories (volume_policies st) (bucket_policies st ++ [policy]) (key_policies st)
  | Some KEY =>
      mkCategories (volume_policies st) (bucket_policies st) (key_policies st ++ [policy])
  | None => st
  end.

(** The level implied by the first path of the policy that implies one. *)
Definition first_level (policy : Policy) : option Level :=
  head (omap path_level (path_values policy)).

(** "The policy is assigned to every level any of its paths implies." *)
Definition assigned_to_every_level (hdfs_policies : list Policy) : Prop :=
  ∀ policy path level,
    policy ∈ hdfs_policies → path ∈ path_values policy → path_level path = Some level →
    policy ∈ partition_of level (categorize_hdfs_policies hdfs_policies).

(** An exported HDFS policy: recursive path resource, one item list. *)
Definition hdfs_policy (name : string) (paths : list string) (items : list PolicyItem)
  : Policy :=
  mkPolicy None None None (Some "hdfs") (Some name) None
    (Some {[ "path" := mkResource (Some paths) (Some false) (Some true) ]})
    (Some items).

(** An item granting the listed kinds to users and groups. *)
Definition grant_item (users groups kinds : list string) : PolicyItem :=
  mkPolicyItem (Some (allow <$> kinds)) (Some users) (Some groups) (Some []).

(** "[rootIdentifier] returns the 3rd segment of a path with at least 3
    segments." *)
Definition returns_third_segment (path : string) : Prop :=
  3 ≤ length (Py.split "/" path) →
  extract_fid_from_path path = Py.split "/" path !! 2.

(** [kind in policy['resources']] *)
Definition has_resource (kind : string) (policy : Policy) : Prop :=
  is_Some (match p_resources policy with
           | Some resources => resources !! kind
           | None => None
           end).

Global Instance has_resource_dec kind policy : Decision (has_resource kind policy).
Proof. unfold has_resource. apply _. Defined.

(** "A TargetPolicy names exactly one volume and, if a bucket or key is
    present, at most one bucket." *)
Definition one_volume_one_bucket (policy : Policy) : Prop :=
  length (resource_values "volume" policy) = 1 ∧
  (has_resource "bucket" policy ∨ has_resource "key" policy →
   length (resource_values "bucket" policy) ≤ 1).

Global Instance one_volume_one_bucket_dec policy : Decision (one_volume_one_bucket policy).
Proof. unfold one_volume_one_bucket. apply _. Defined.

(** What the emitted policies do satisfy: the one volume is the root
    identifier, a key comes with exactly one bucket, and a bucket resource
    is never empty. *)
Definition volume_and_key_bucket (fid : string) (policy : Policy) : Prop :=
  resource_values "volume" policy = [fid] ∧
  (has_resource "key" policy → ∃ bucket, resource_values "bucket" policy = [bucket]) ∧
  (has_resource "bucket" policy → resource_values "bucket" policy ≠ []).

(** The bucket names a synthesis collects for its CONTAINER-level policy. *)
Definition collected_buckets (fid : string) (hdfs_policies : list Policy) : gset string :=
  let cats := categorize_hdfs_policies hdfs_policies in
  collect_buckets fid (bucket_policies cats ++ key_policies cats).

(** The policies of a list that have a bucket resource and no key. *)
Definition container_level (policies : list Policy) : list Policy :=
  filter (λ policy, has_resource "bucket" policy ∧ ¬ has_resource "key" policy) policies.

(** The three shapes of an emitted resources dict: volume only; volume and
    the bucket list [buckets]; volume, one bucket and one recursive key. *)
Definition target_shape (fid : string) (buckets : list string) (policy : Policy) : Prop :=
  p_resources policy = Some {[ "volume" := res_values [fid] ]}
  ∨ (buckets ≠ [] ∧
     p_resources policy
     = Some (<[ "bucket" := res_values buckets ]> {[ "volume" := res_values [fid] ]}))
  ∨ (∃ bucket key,
       p_resources policy
       = Some (<[ "key" := res_recursive [key] ]>
                 (<[ "bucket" := res_values [bucket] ]> {[ "volume" := res_values [fid] ]}))).

(** The directory the fallback resolver reads for a root identifier. *)
Definition fid_path_of (env : Env) (fid : string) : string :=
  default "/data/" (FID_DIR_PREFIX env) +:+ fid.

(** The root identifier a recorded call was made for. *)
Definition call_fid (c : Call) : string :=
  match c with
  | Call_convert_hdfs_policies_for_fid fid => fid
  | Call_create_ozone_policies_from_hdfs_acls fid => fid
  end.

(** The call the loop body makes for one root identifier, if any. *)
Definition call_for (env : Env) (hdfs_policies : list Policy) (fid : string) : list Call :=
  match get_hdfs_policies_for_fid fid hdfs_policies with
  | [] =>
      if is_hdfs_acl_fallback_enabled env
      then [Call_create_ozone_policies_from_hdfs_acls fid] else []
  | _ :: _ => [Call_convert_hdfs_policies_for_fid fid]
  end.

(** The name fragment each resource kind contributes to a clone, read off
    the resources of the source policy. *)
Definition db_fragment (ozone_prefix : string) (resources : gmap string Resource)
  : list string :=
  match declared_values "database" resources with
  | Some vs => ["db=" +:+ Py.join "," ((λ db, ozone_prefix +:+ "_" +:+ db) <$> vs)]
  | None => []
  end.

Definition url_fragment (ozone_service_id : string) (resources : gmap string Resource)
  : list string :=
  match declared_values "url" resources with
  | Some (u :: _) => ["url=" +:+ transform_url ozone_service_id u]
  | _ => []
  end.

Definition skip_wildcard_fragment (kind tag : string) (resources : gmap string Resource)
  : list string :=
  match declared_values kind resources with
  | Some vs =>
      if list_truthy vs && bool_decide (vs ≠ ["*"]) then [tag +:+ "=" +:+ Py.join "," vs]
      else []
  | None => []
  end.

Definition udf_fragment (resources : gmap string Resource) : list string :=
  match declared_values "udf" resources with
  | Some vs => if list_truthy vs then ["udf=" +:+ Py.join "," vs] else []
  | None => []
  end.

(** The name fragments collected when a policy is cloned. *)
Definition name_fragments (policy : Policy) (ozone_prefix ozone_service_id : string)
  : list string :=
  new_name_parts
    (clone_resources (default ∅ (p_resources policy)) ozone_prefix ozone_service_id).

(** The policy without its resource of the given kind. *)
Definition without_resource (kind : string) (policy : Policy) : Policy :=
  mkPolicy (p_id policy) (p_guid policy) (p_version policy) (p_service policy)
    (p_name policy) (p_description policy)
    (delete kind <$> p_resources policy) (p_policyItems policy).

(** "A resource whose value list is the single wildcard contributes no
    fragment to the derived name": the clone is named as if the policy did
    not have the resource. *)
Definition wildcard_dropped_from_name (kind : string) (policy : Policy)
    (ozone_prefix ozone_service_id : string) : Prop :=
  resource_values kind policy = ["*"] →
  p_name (clone_hive_policy policy ozone_prefix ozone_service_id)
  = p_name (clone_hive_policy (without_resource kind policy) ozone_prefix ozone_service_id).

(** An exported Hive policy with the given resources. *)
Definition hive_policy (name : string) (resources : list (string * list string)) : Policy :=
  mkPolicy (Some 7) (Some "guid-7") (Some 1) (Some "hive") (Some name) None
    (Some (list_to_map ((λ kv, (fst kv, res_values (snd kv))) <$> resources)))
    (Some [grant_item ["alice"] [] ["select"]]).

(** "The policy declares a path whose extracted root identifier is [r]." *)
Definition declares_root (r : string) (policy : Policy) : Prop :=
  ∃ path, path ∈ path_values policy ∧ extract_fid_from_path path = Some r.

(** A text of several lines, as [hdfs dfs -getfacl] prints it. *)
Definition text_of_lines (lines : list string) : string :=
  Py.join (String "010"%char EmptyString) lines +:+ String "010"%char EmptyString.

(** A filesystem with one root directory [/data/fid9], owned by [bob] with
    [rwx], and one child [managed] readable and traversable by the group
    [svc]. *)
Definition fid9_env : Env :=
  mkEnv None true
    (λ path,
       if decide (path = "/data/fid9") then
         text_of_lines ["# file: /data/fid9"; "# owner: bob"; "# group: hadoop";
                        "user::rwx"; "group::---"; "other::---"]
       else if decide (path = "/data/fid9/managed") then
         text_of_lines ["# file: /data/fid9/managed"; "# owner: bob"; "# group: hadoop";
                        "user::---"; "group:svc:r-x"; "other::---"]
       else EmptyString)
    (λ path, if decide (path = "/data/fid9") then ["managed"] else []).

(** The grant list an rwx string stands for: read, write and execute, each
    when its letter is in the string. *)
Definition posix_grants (posix_perms : string) : list Access :=
  (if Py.char_in "r" posix_perms then [allow "read"] else [])
  ++ (if Py.char_in "w" posix_perms then [allow "write"] else [])
  ++ (if Py.char_in "x" posix_perms then [allow "execute"] else []).

(** Every character of [s] satisfies [p]. *)
Fixpoint all_chars (p : ascii → bool) (s : string) : bool :=
  match s with
  | EmptyString => true
  | String c s' => p c && all_chars p s'
  end.

(** The characters of an identifier that the patterns built from it read
    literally: letters, digits, underscore and dash. *)
Definition plain_char (c : ascii) : bool :=
  let n := nat_of_ascii c in
  ((48 <=? n) && (n <=? 57)) || ((65 <=? n) && (n <=? 90)) || ((97 <=? n) && (n <=? 122))
  || (n =? 95) || (n =? 45).

Definition plain_identifier (s : string) : bool := nonempty s && all_chars plain_char s.

(** [item.get('users', [])] and [item.get('groups', [])] *)
Definition item_users (item : PolicyItem) : list string := default [] (i_users item).
Definition item_groups (item : PolicyItem) : list string := default [] (i_groups item).

(** An item of the fallback resolver: one named user or one named group,
    no role, and the non-empty translation of some rwx string. *)
Definition single_principal_item (item : PolicyItem) : Prop :=
  ((∃ user, nonempty user = true ∧ i_users item = Some [user] ∧ i_groups item = Some [])
   ∨ (∃ group, nonempty group = true ∧ i_users item = Some [] ∧ i_groups item = Some [group]))
  ∧ i_roles item = Some []
  ∧ ∃ perms, i_accesses item = Some (convert_posix_to_ozone_permissions perms)
             ∧ convert_posix_to_ozone_permissions perms ≠ [].

(** The invariant of the second pass of [parse_hdfs_facl_full_permissions]. *)
Definition full_scan_invariant (st : FullScan) : Prop :=
  Forall single_principal_item (permission_items st)
  ∧ NoDup (permission_items st ≫= item_users)
  ∧ NoDup (permission_items st ≫= item_groups)
  ∧ (∀ user, user ∈ permission_items st ≫= item_users → user ∈ processed_users st)
  ∧ (∀ group, group ∈ permission_items st ≫= item_groups → group ∈ processed_groups st).

(** The invariant of the loop of [parse_hdfs_facl]. *)
Definition facl_scan_invariant (st : FaclScan) : Prop :=
  NoDup (fs_users st) ∧ NoDup (fs_groups st)
  ∧ Forall (λ user, nonempty user = true) (fs_users st)
  ∧ Forall (λ group, nonempty group = true) (fs_groups st).

(** [policy['resources'][kind]] when both keys are present. *)
Definition resource_of (kind : string) (policy : Policy) : option Resource :=
  match p_resources policy with
  | Some resources => resources !! kind
  | None => None
  end.

(** What cloning does to the resource of a kind: the values of a database
    get the prefix, the values of a url are rewritten, the flags and every
    other resource stay. *)
Definition clone_resource (ozone_prefix ozone_service_id kind : string) (r : Resource)
  : Resource :=
  match r_values r with
  | Some vs =>
      if decide (kind = "database")
      then set_values r ((λ db, ozone_prefix +:+ "_" +:+ db) <$> vs)
      else if decide (kind = "url")
      then set_values r (transform_url ozone_service_id <$> vs)
      else r
  | None => r
  end.

(** No two separators in a row. *)
Fixpoint no_double_slash (s : string) : bool :=
  match s with
  | EmptyString => true
  | String c s' =>
      match s' with
      | String d _ =>
          negb (bool_decide (c = "/"%char) && bool_decide (d = "/"%char)) && no_double_slash s'
      | EmptyString => true
      end
  end.

(** The three layer names of the URL shapes. *)
Definition is_layer (layer : string) : Prop :=
  layer = "raw" ∨ layer = "managed" ∨ layer = "work".


(** What may follow the database name of a URL: nothing, or a character
    that no database name holds (a separator or white space). *)
Definition ends_name (suffix : string) : bool :=
  match suffix with
  | EmptyString => true
  | String c _ => negb (url_name_char c)
  end.

(** [policy.get('id')] is truthy: present and not zero. *)
Definition has_id (policy : Policy) : bool :=
  match p_id policy with
  | Some (S _) => true
  | _ => false
  end.

(** What [filter_hive_policies] lets through. *)
Definition passes_filter (include_databases exclude_databases : list string)
    (policy : Policy) : bool :=
  negb (is_default_policy policy)
  && matches_database_filter policy include_databases exclude_databases.

(** What [get_policies_for_cleanup] marks for deletion. *)
Definition marked_for_deletion (include_databases : list string) (policy : Policy) : bool :=
  negb (is_default_policy policy) && negb (has_url_resource policy)
  && (negb (list_truthy include_databases)
      || matches_database_filter policy include_databases []).

(** The truthy ids of the policies, in their order. *)
Definition policy_ids (policies : list Policy) : list nat :=
  omap (λ policy, match p_id policy with
                  | Some (S n) => Some (S n)
                  | _ => None
                  end) policies.

(** The store after a sequence of requests, whatever their answers. *)
Definition after_requests {Store A} (request : Store → A → bool * Store)
    (store : Store) (l : list A) : Store :=
  foldl (λ st x, (request st x).2) store l.

(** A string that does not begin with a character of [p]. *)
Definition head_ok (p : ascii → bool) (s : string) : bool :=
  match s with
  | EmptyString => true
  | String d _ => negb (p d)
  end.
(** ** Properties of the permission model translator *)

Section translator.

Implicit Types (l : list Access) (k : string) (a : Access).

Lemma grants_nil k : ¬ grants k [].
Proof. unfold grants, kinds. simpl. apply not_elem_of_nil. Qed.

Lemma grants_nil_iff k : grants k [] ↔ False.
Proof. split; [apply grants_nil | done]. Qed.

Lemma grants_cons k a l : grants k (a :: l) ↔ acc_type a = Some k ∨ grants k l.
Proof.
  unfold grants, kinds. simpl. destruct (acc_type a) as [k'|]; simpl.
  - rewrite elem_of_cons. split; intros [H|H]; auto; left; congruence.
  - split; [auto | intros [H|H]; [discriminate | done]].
Qed.

Lemma grants_app k l1 l2 : grants k (l1 ++ l2) ↔ grants k l1 ∨ grants k l2.
Proof. unfold grants, kinds. rewrite omap_app. apply elem_of_app. Qed.

Lemma grants_allow k k' : grants k [allow k'] ↔ k = k'.
Proof.
  rewrite grants_cons. simpl. split.
  - intros [H|H]; [congruence | by apply grants_nil in H].
  - intros ->. by left.
Qed.

Lemma has_kind_cons k a l :
  has_kind k (a :: l) = bool_decide (acc_type a = Some k) || has_kind k l.
Proof.
  unfold has_kind. apply eq_true_iff_eq.
  rewrite orb_true_iff, !bool_decide_eq_true. apply grants_cons.
Qed.

Lemma has_kind_true k l : has_kind k l = true ↔ grants k l.
Proof. apply bool_decide_eq_true. Qed.

(** The loop as a whole: the copies in input order and the three flags. *)
Lemma perm_scan_foldl l st :
  foldl perm_scan_step st l =
    mkPermScan (ozone_accesses st ++ (l ≫= copied))
               (has_read st || has_kind "read" l)
               (has_write st || has_kind "write" l)
               (has_execute st || has_kind "execute" l).
Proof.
  revert st. induction l as [|a l IH]; intros st.
  - destruct st. simpl. unfold has_kind.
    rewrite !bool_decide_eq_false_2 by apply grants_nil.
    by rewrite app_nil_r, !orb_false_r.
  - simpl. rewrite IH, !has_kind_cons. unfold perm_scan_step, copied.
    repeat case_decide; try congruence; simpl;
      repeat match goal with
        | H : acc_type a = Some _ |- _ => rewrite H in *; clear H
        end;
      repeat (rewrite bool_decide_eq_false_2 by congruence);
      repeat (rewrite bool_decide_eq_true_2 by congruence);
      simpl; rewrite <- ?app_assoc; simpl;
      rewrite ?orb_true_r, ?orb_false_r; try reflexivity.
Qed.

Lemma convert_permissions_unfold l :
  convert_permissions_hdfs_to_ozone l =
    map_combinations (has_kind "read" l) (has_kind "write" l) (has_kind "execute" l)
      (l ≫= copied).
Proof. unfold convert_permissions_hdfs_to_ozone. by rewrite perm_scan_foldl. Qed.

Lemma grants_copied k l :
  grants k (l ≫= copied) ↔
    (k = "read" ∧ grants "read" l) ∨ (k = "write" ∧ grants "write" l).
Proof.
  induction l as [|a l IH]; simpl.
  - rewrite !grants_nil_iff. tauto.
  - rewrite grants_app, IH, !grants_cons. unfold copied.
    repeat case_decide; rewrite ?grants_allow, ?grants_nil_iff;
      intuition (subst; try congruence; eauto 6).
Qed.

Lemma grants_if_app k (b : bool) acc extra :
  grants k (if b then acc ++ extra else acc) ↔ grants k acc ∨ (b = true ∧ grants k extra).
Proof. destruct b; rewrite ?grants_app; intuition congruence. Qed.

(** Which kinds the "Map combinations" step adds. *)
Lemma grants_map_combinations k (r w x : bool) acc :
  grants k (map_combinations r w x acc) ↔
    grants k acc ∨ (k = "list" ∧ r = true ∧ x = true)
    ∨ ((k = "create" ∨ k = "delete") ∧ w = true ∧ x = true).
Proof.
  unfold map_combinations.
  rewrite !grants_if_app, !andb_true_iff, (grants_cons _ (allow "create")),
    !grants_allow. simpl.
  split.
  - intros [[H|[[-> ->] ->]]|[[-> ->] [H| ->]]]; eauto 6.
    right; right. split; [left; congruence | done].
  - intros [H|[(-> & -> & ->)|[[-> | ->] [-> ->]]]]; eauto 6.
Qed.

(** Every kind the source-policy translator emits, and when. *)
Lemma grants_convert_permissions k l :
  grants k (convert_permissions_hdfs_to_ozone l) ↔
    (k = "read" ∧ grants "read" l) ∨ (k = "write" ∧ grants "write" l)
    ∨ (k = "list" ∧ grants "read" l ∧ grants "execute" l)
    ∨ ((k = "create" ∨ k = "delete") ∧ grants "write" l ∧ grants "execute" l).
Proof.
  rewrite convert_permissions_unfold, grants_map_combinations, grants_copied,
    !has_kind_true. tauto.
Qed.

Lemma grants_convert_posix k (posix_perms : string) :
  grants k (convert_posix_to_ozone_permissions posix_perms) ↔
    (k = "read" ∧ Py.char_in "r" posix_perms = true)
    ∨ (k = "write" ∧ Py.char_in "w" posix_perms = true)
    ∨ (k = "list" ∧ Py.char_in "r" posix_perms = true ∧ Py.char_in "x" posix_perms = true)
    ∨ ((k = "create" ∨ k = "delete")
       ∧ Py.char_in "w" posix_perms = true ∧ Py.char_in "x" posix_perms = true).
Proof.
  unfold convert_posix_to_ozone_permissions.
  rewrite grants_map_combinations.
  destruct (Py.char_in "r" posix_perms), (Py.char_in "w" posix_perms); simpl;
    rewrite ?grants_cons, ?grants_allow, ?grants_nil_iff; simpl;
    intuition congruence.
Qed.

(** From the kinds an output has to the derived-permission table. *)
Lemma translation_table_intro (r w x : Prop) out :
  (∀ k, grants k out ↔
          (k = "read" ∧ r) ∨ (k = "write" ∧ w) ∨ (k = "list" ∧ r ∧ x)
          ∨ ((k = "create" ∨ k = "delete") ∧ w ∧ x)) →
  (¬ r ∧ ¬ w → out = []) →
  translation_table r w x out.
Proof.
  intros Hk Hnil. unfold translation_table.
  rewrite !Hk. repeat split; try (intuition congruence); eauto 8.
Qed.

Lemma copied_nil l :
  ¬ grants "read" l → ¬ grants "write" l → l ≫= copied = [].
Proof.
  induction l as [|a l IH]; [done|].
  rewrite !grants_cons. intros Hr Hw. rewrite bind_cons, IH by tauto.
  unfold copied. repeat case_decide; tauto.
Qed.

Lemma has_kind_false k l : has_kind k l = false ↔ ¬ grants k l.
Proof. apply bool_decide_eq_false. Qed.

Lemma convert_permissions_nil l :
  ¬ grants "read" l ∧ ¬ grants "write" l → convert_permissions_hdfs_to_ozone l = [].
Proof.
  intros [Hr Hw]. rewrite convert_permissions_unfold, copied_nil by done.
  apply has_kind_false in Hr, Hw. by rewrite Hr, Hw.
Qed.

Lemma convert_posix_nil (posix_perms : string) :
  ¬ Py.char_in "r" posix_perms = true ∧ ¬ Py.char_in "w" posix_perms = true →
  convert_posix_to_ozone_permissions posix_perms = [].
Proof.
  intros [Hr Hw]. unfold convert_posix_to_ozone_permissions.
  apply not_true_is_false in Hr, Hw. by rewrite Hr, Hw.
Qed.

(** Grants of an unknown kind do not reach the loop's branches. *)
Lemma copied_filter_known l : filter known_kind l ≫= copied = l ≫= copied.
Proof.
  induction l as [|a l IH]; [done|].
  rewrite filter_cons. case_decide as Hk; rewrite !bind_cons, IH; [done|].
  unfold copied, known_kind in *.
  repeat case_decide; try done; exfalso; apply Hk;
    match goal with H : acc_type a = _ |- _ => rewrite H end;
    apply (bool_decide_unpack _); vm_compute; exact I.
Qed.

Lemma grants_filter_known k l :
  k ∈ ["read"; "write"; "execute"] →
  grants k (filter known_kind l) ↔ grants k l.
Proof.
  intros Hk. induction l as [|a l IH]; [done|].
  rewrite filter_cons. case_decide as Ha.
  - rewrite !grants_cons, IH. done.
  - rewrite grants_cons, IH. split; [auto|].
    intros [E|H]; [|done]. exfalso. apply Ha. unfold known_kind. rewrite E.
    exact (list_elem_of_fmap_2 Some _ _ Hk).
Qed.

Lemma has_kind_filter_known k l :
  k ∈ ["read"; "write"; "execute"] →
  has_kind k (filter known_kind l) = has_kind k l.
Proof.
  intros Hk. apply eq_true_iff_eq. rewrite !has_kind_true.
  by apply grants_filter_known.
Qed.

Lemma char_in_keep_chars (p : ascii → bool) c (s : string) :
  p c = true → Py.char_in c (keep_chars p s) = Py.char_in c s.
Proof.
  intros Hc. induction s as [|d s IH]; [done|]. simpl.
  destruct (p d) eqn:Hd; simpl; case_decide; subst; try done; congruence.
Qed.

(** The flags of the input are not read. *)
Lemma kinds_with_flags flag l : kinds (with_flags flag l) = kinds l.
Proof.
  unfold kinds, with_flags. induction l as [|a l IH]; [done|].
  simpl. destruct (acc_type a); simpl; [f_equal|]; exact IH.
Qed.

Lemma copied_with_flags flag l : with_flags flag l ≫= copied = l ≫= copied.
Proof.
  unfold with_flags. induction l as [|a l IH]; [done|].
  rewrite fmap_cons, !bind_cons, IH. done.
Qed.

Lemma has_kind_with_flags flag k l : has_kind k (with_flags flag l) = has_kind k l.
Proof.
  unfold has_kind. apply bool_decide_ext. unfold grants.
  by rewrite kinds_with_flags.
Qed.

Lemma map_combinations_allowed (r w x : bool) acc :
  Forall (λ a, isAllowed a = true) acc →
  Forall (λ a, isAllowed a = true) (map_combinations r w x acc).
Proof.
  intros H. unfold map_combinations.
  destruct (r && x), (w && x); rewrite ?Forall_app; repeat split;
    try done; repeat constructor.
Qed.

Lemma copied_allowed l : Forall (λ a, isAllowed a = true) (l ≫= copied).
Proof.
  induction l as [|a l IH]; [constructor|]. simpl. apply Forall_app. split; [|done].
  unfold copied. repeat case_decide; repeat constructor.
Qed.

End translator.

(** C1. The permission translation (of a list of grants and of an rwx bit
    string) emits [read] iff read is present, [write] iff write is present,
    [list] iff read and execute are present, [create] and [delete] iff write
    and execute are present, never [execute], and nothing at all when neither
    read nor write is present; grants of an unknown kind, and characters other
    than [r], [w] and [x], change nothing. *)
Theorem permission_translation_table (hdfs_accesses : list Access) (posix_perms : string) :
  translation_table (grants "read" hdfs_accesses) (grants "write" hdfs_accesses)
    (grants "execute" hdfs_accesses) (convert_permissions_hdfs_to_ozone hdfs_accesses)
  ∧ convert_permissions_hdfs_to_ozone (filter known_kind hdfs_accesses)
    = convert_permissions_hdfs_to_ozone hdfs_accesses
  ∧ translation_table (Py.char_in "r" posix_perms = true) (Py.char_in "w" posix_perms = true)
      (Py.char_in "x" posix_perms = true) (convert_posix_to_ozone_permissions posix_perms)
  ∧ convert_posix_to_ozone_permissions (keep_chars rwx_char posix_perms)
    = convert_posix_to_ozone_permissions posix_perms.
Proof.
  split; [|split; [|split]].
  - apply translation_table_intro.
    + intros k. apply grants_convert_permissions.
    + apply convert_permissions_nil.
  - rewrite !convert_permissions_unfold, copied_filter_known.
    rewrite !has_kind_filter_known by (apply (bool_decide_unpack _); vm_compute; exact I).
    done.
  - apply translation_table_intro.
    + intros k. apply grants_convert_posix.
    + apply convert_posix_nil.
  - unfold convert_posix_to_ozone_permissions.
    by rewrite !char_in_keep_chars.
Qed.

(** C8. The translation is monotonic: when every permission kind of the
    grant list [A] is a kind of [B], every kind emitted for [A] is emitted
    for [B]. *)
Theorem translation_monotonic (A B : list Access) (k : string) :
  kinds A ⊆ kinds B →
  grants k (convert_permissions_hdfs_to_ozone A) →
  grants k (convert_permissions_hdfs_to_ozone B).
Proof.
  intros Hsub. rewrite !grants_convert_permissions.
  assert (∀ k', grants k' A → grants k' B) as Hg by (intros k'; apply Hsub).
  intuition auto 10.
Qed.

(** Monotonicity at work: the kinds of [read, execute] are among those of
    [execute, write, read], and [list], emitted for the first, is emitted for
    the second. *)
Lemma translation_monotonic_witness :
  let A := [allow "read"; allow "execute"] in
  let B := [mkAccess (Some "execute") true; mkAccess (Some "write") false;
            mkAccess (Some "read") true] in
  kinds A ⊆ kinds B
  ∧ grants "list" (convert_permissions_hdfs_to_ozone A)
  ∧ grants "list" (convert_permissions_hdfs_to_ozone B).
Proof.
  intros A B.
  assert (kinds A ⊆ kinds B) as Hsub by (apply (bool_decide_unpack _); vm_compute; exact I).
  assert (grants "list" (convert_permissions_hdfs_to_ozone A)) as HA
    by (apply (bool_decide_unpack _); vm_compute; exact I).
  split; [exact Hsub|split; [exact HA|]].
  exact (translation_monotonic A B "list" Hsub HA).
Defined.

(** C10. The translator reads the permission kind of a grant and never its
    [isAllowed] flag: changing the flags of the input changes nothing, every
    emitted grant is an allow grant, and a denied read comes out as an
    allowed read. *)
Theorem translation_ignores_isAllowed (hdfs_accesses : list Access) (flag : Access → bool) :
  convert_permissions_hdfs_to_ozone (with_flags flag hdfs_accesses)
  = convert_permissions_hdfs_to_ozone hdfs_accesses
  ∧ Forall (λ a, isAllowed a = true) (convert_permissions_hdfs_to_ozone hdfs_accesses)
  ∧ convert_permissions_hdfs_to_ozone [mkAccess (Some "read") false] = [allow "read"].
Proof.
  split; [|split].
  - rewrite !convert_permissions_unfold, copied_with_flags.
    by rewrite !has_kind_with_flags.
  - rewrite convert_permissions_unfold.
    apply map_combinations_allowed, copied_allowed.
  - reflexivity.
Qed.

(** ** Properties of the path classifier *)

Section classifier.

Implicit Types (policy : Policy) (st : Categories) (level : Level).

Lemma categorize_paths_assign policy paths st :
  categorize_paths policy paths st = assign (head (omap path_level paths)) policy st.
Proof.
  induction paths as [|path paths IH]; [done|].
  simpl. destruct (path_level path) as [[]|]; simpl; [done..|exact IH].
Qed.

Lemma partition_of_assign level o policy st :
  partition_of level (assign o policy st) =
    partition_of level st ++ (if decide (o = Some level) then [policy] else []).
Proof.
  destruct o as [[]|], level; simpl; try case_decide; try congruence;
    by rewrite ?app_nil_r.
Qed.

Lemma partition_of_foldl level hdfs_policies st :
  partition_of level
    (foldl (λ st policy, categorize_paths policy (path_values policy) st) st hdfs_policies)
  = partition_of level st ++ filter (λ policy, first_level policy = Some level) hdfs_policies.
Proof.
  revert st. induction hdfs_policies as [|policy l IH]; intros st; simpl.
  - by rewrite app_nil_r.
  - rewrite IH, categorize_paths_assign, partition_of_assign, filter_cons.
    fold (first_level policy). case_decide; simpl; by rewrite <- ?app_assoc, ?app_nil_r.
Qed.

(** [strip_prefix] and [startswith] agree, and a stripped prefix can be
    put back. *)
Lemma strip_prefix_Some (p s rest : string) :
  Py.strip_prefix p s = Some rest → s = p +:+ rest.
Proof.
  revert s. induction p as [|a p IH]; intros s; simpl.
  - intros [= ->]. done.
  - destruct s as [|b s]; [done|]. case_decide; [|done]. subst.
    intros H. apply IH in H. subst. done.
Qed.

Lemma startswith_strip_prefix (p s : string) :
  Py.startswith p s = true ↔ is_Some (Py.strip_prefix p s).
Proof.
  revert s. induction p as [|a p IH]; intros s; simpl.
  - split; eauto.
  - destruct s as [|b s]; [split; [done|intros [? [=]]]|].
    case_decide; [apply IH|]. split; [done|intros [? [=]]].
Qed.

(** The first field of a split is the longest prefix without separator. *)
Lemma split_head (s : string) :
  head (Py.split "/" s) = Some (fst (Py.span not_slash s)).
Proof.
  induction s as [|d s IH]; [done|]. simpl. unfold not_slash at 1.
  case_decide as Hd.
  - subst. rewrite bool_decide_eq_false_2 by (intros ?; done). done.
  - rewrite bool_decide_eq_true_2 by done.
    destruct (Py.split "/" s) as [|h t]; [done|].
    destruct (Py.span not_slash s) as [h' t']. simpl in *. congruence.
Qed.

Lemma split_data_prefix (rest : string) :
  Py.split "/" ("/data/" +:+ rest) = EmptyString :: "data" :: Py.split "/" rest.
Proof.
  change ("/data/" +:+ rest) with
    (String "/" (String "d" (String "a" (String "t" (String "a" (String "/" rest)))))).
  reflexivity.
Qed.

Lemma string_app_assoc (s1 s2 s3 : string) : (s1 +:+ s2) +:+ s3 = s1 +:+ (s2 +:+ s3).
Proof.
  induction s1 as [|c s1 IH]; [done|].
  change (String c ((s1 +:+ s2) +:+ s3) = String c (s1 +:+ (s2 +:+ s3))).
  by rewrite IH.
Qed.

Lemma startswith_app (p s : string) : Py.startswith p (p +:+ s) = true.
Proof.
  induction p as [|c p IH]; [done|].
  change (Py.startswith (String c p) (String c (p +:+ s)) = true).
  simpl. by case_decide.
Qed.

(** A span splits the string in two. *)
Lemma span_app (p : ascii → bool) (s h t : string) :
  Py.span p s = (h, t) → s = h +:+ t.
Proof.
  revert h t. induction s as [|c s IH]; intros h t; simpl.
  - by intros [= <- <-].
  - destruct (p c); [|by intros [= <- <-]].
    destruct (Py.span p s) as [h' t']. intros [= <- <-].
    change (String c s = String c (h' +:+ t')). by rewrite (IH h' t').
Qed.




(** The selection by prefix takes at least the policies that declare the
    root identifier. *)
Lemma selection_includes_declared (r : string) (hdfs_policies : list Policy) policy :
  policy ∈ hdfs_policies → declares_root r policy →
  policy ∈ get_hdfs_policies_for_fid r hdfs_policies.
Proof.
  intros Hin (path & Hpath & Hr). unfold get_hdfs_policies_for_fid.
  apply list_elem_of_filter. split; [|done].
  apply existsb_exists. exists path. split; [by apply list_elem_of_In|].
  unfold extract_fid_from_path in Hr.
  destruct (Py.strip_prefix "/data/" path) as [rest|] eqn:E; [|done].
  destruct (Py.span not_slash rest) as [[|c fid] t] eqn:Es; [done|].
  injection Hr as <-. apply strip_prefix_Some in E. apply span_app in Es. subst.
  rewrite <- string_app_assoc. apply startswith_app.
Qed.

End classifier.

(** C2, as stated, fails: a policy with a 3-segment path followed by a
    5-segment path is put in the volume partition and not in the key
    partition. *)
Lemma assigned_to_every_level_counterexample :
  ¬ assigned_to_every_level
      [hdfs_policy "mixed" ["/data/fid1"; "/data/fid1/raw/k1"] [grant_item ["alice"] [] ["read"]]].
Proof.
  intros H.
  specialize (H (hdfs_policy "mixed" ["/data/fid1"; "/data/fid1/raw/k1"]
                   [grant_item ["alice"] [] ["read"]])
                "/data/fid1/raw/k1" KEY).
  assert (∀ policy : Policy, policy ∈ [policy]) as Hin by (intros; apply list_elem_of_singleton; done).
  specialize (H (Hin _)).
  assert (key_policies (categorize_hdfs_policies
            [hdfs_policy "mixed" ["/data/fid1"; "/data/fid1/raw/k1"]
               [grant_item ["alice"] [] ["read"]]]) = []) as Hk by (vm_compute; reflexivity).
  simpl partition_of in H. rewrite Hk in H.
  eapply not_elem_of_nil, H; [|vm_compute; reflexivity].
  apply (bool_decide_unpack _). vm_compute. exact I.
Qed.

(** C2, amended. Each policy is assigned to one partition at most: the one
    of the level implied by the first of its paths that has 3 segments or
    more, whatever its later paths imply. *)
Theorem categorize_by_first_level (hdfs_policies : list Policy) (level : Level) :
  partition_of level (categorize_hdfs_policies hdfs_policies)
  = filter (λ policy, first_level policy = Some level) hdfs_policies.
Proof. unfold categorize_hdfs_policies. rewrite partition_of_foldl. by destruct level. Qed.

(** C4, as stated, fails: under a namespace other than [/data] no root
    identifier is returned, although the path has a 3rd segment. *)
Lemma returns_third_segment_counterexample :
  ¬ returns_third_segment "/ns/fid7/raw/x".
Proof.
  unfold returns_third_segment. intros H.
  assert (3 ≤ length (Py.split "/" "/ns/fid7/raw/x")) as Hlen by (vm_compute; lia).
  specialize (H Hlen). vm_compute in H. discriminate H.
Qed.

(** C4, amended. [extract_fid_from_path] returns a root identifier exactly
    for the paths that start with the fixed prefix [/data/] and have a
    non-empty 3rd segment, and then it returns that segment (index 2); so
    [/data/fid7/raw/x] gives [fid7] and [/ns/fid7/raw/x] gives none. *)
Theorem extract_fid_third_segment_under_data (path seg : string) :
  (extract_fid_from_path path = Some seg ↔
     Py.startswith "/data/" path = true ∧ Py.split "/" path !! 2 = Some seg ∧ seg ≠ EmptyString)
  ∧ extract_fid_from_path "/data/fid7/raw/x" = Some "fid7"
  ∧ extract_fid_from_path "/ns/fid7/raw/x" = None.
Proof.
  split; [|split; reflexivity].
  unfold extract_fid_from_path.
  destruct (Py.strip_prefix "/data/" path) as [rest|] eqn:E.
  - pose proof (proj2 (startswith_strip_prefix "/data/" path) (ex_intro _ _ E)) as Hs.
    rewrite Hs. apply strip_prefix_Some in E. subst path.
    rewrite split_data_prefix. change ((EmptyString :: "data" :: Py.split "/" rest) !! 2)
      with (Py.split "/" rest !! 0).
    rewrite <- head_lookup, split_head.
    destruct (Py.span not_slash rest) as [[|c fid] t]; simpl;
      split; [done|intros (_ & [= <-] & ?); done|intros [= <-]; done|intros (_ & [= <-] & _); done].
  - split; [done|]. intros [Hs _]. apply startswith_strip_prefix in Hs.
    rewrite E in Hs. by destruct Hs.
Qed.

(** ** Properties of the policy synthesizer and of the fallback resolver *)

Section target_policies.

Implicit Types (fid bucket key ozone_service : string) (policy : Policy).

Lemma volume_policy_shape fid users groups roles ozone_service :
  let policy := create_ozone_volume_policy fid users groups roles ozone_service in
  resource_values "volume" policy = [fid]
  ∧ ¬ has_resource "bucket" policy ∧ ¬ has_resource "key" policy.
Proof. repeat split; intros [? [=]]. Qed.

Lemma bucket_policy_shape fid buckets users groups roles ozone_service :
  let policy := create_ozone_bucket_policy fid buckets users groups roles ozone_service in
  resource_values "volume" policy = [fid]
  ∧ resource_values "bucket" policy = buckets
  ∧ has_resource "bucket" policy ∧ ¬ has_resource "key" policy.
Proof. repeat split; [by eexists | intros [? [=]]]. Qed.

Lemma key_policy_shape fid bucket key hdfs_policy ozone_service :
  let policy := create_ozone_key_policy fid bucket key hdfs_policy ozone_service in
  resource_values "volume" policy = [fid]
  ∧ resource_values "bucket" policy = [bucket]
  ∧ has_resource "key" policy.
Proof. repeat split; by eexists. Qed.

Lemma target_shape_invariant fid buckets policy :
  target_shape fid buckets policy →
  volume_and_key_bucket fid policy
  ∧ (has_resource "bucket" policy ∧ ¬ has_resource "key" policy →
     resource_values "bucket" policy = buckets).
Proof.
  unfold volume_and_key_bucket, has_resource, resource_values.
  intros [H|[[Hne H]|(bucket & key & H)]]; rewrite H.
  - repeat split; try (intros [? [=]]). intros [[? [=]] _].
  - repeat split; try (intros [? [=]]); try done.
  - repeat split; try done; [by eexists|]. intros [_ []]. by eexists.
Qed.

Lemma key_level_policies_shape fid policies ozone_service buckets :
  Forall (target_shape fid buckets) (key_level_policies fid policies ozone_service).
Proof.
  apply Forall_forall. intros p Hp. unfold key_level_policies in Hp.
  apply list_elem_of_bind in Hp as (policy & Hp & _).
  apply list_elem_of_bind in Hp as (path & Hp & _).
  destruct (extract_bucket_and_key_from_path path fid) as [[bucket|] [key|]];
    try (by apply not_elem_of_nil in Hp).
  destruct (truthy (Some bucket) && truthy (Some key));
    [|by apply not_elem_of_nil in Hp].
  apply list_elem_of_singleton in Hp as ->.
  right; right. by exists bucket, key.
Qed.

Lemma convert_hdfs_policies_shape fid hdfs_policies ozone_service :
  Forall (target_shape fid (elements (collected_buckets fid hdfs_policies)))
         (convert_hdfs_policies_for_fid fid hdfs_policies ozone_service).
Proof.
  unfold convert_hdfs_policies_for_fid.
  fold (collected_buckets fid hdfs_policies).
  apply Forall_app_2; [|apply key_level_policies_shape].
  match goal with
  | |- Forall ?P (if _ then ?v ++ _ else ?v) => assert (Forall P v) as Hvol
  end.
  { case_bool_decide; repeat constructor. }
  destruct (bool_decide (collected_buckets fid hdfs_policies ≠ ∅)) eqn:Hb;
    [|exact Hvol].
  apply bool_decide_eq_true in Hb.
  apply Forall_app_2; [exact Hvol|].
  constructor; [|constructor]. right; left. split; [|done].
  intros He. apply Hb. apply elements_empty_inv in He.
  by apply leibniz_equiv.
Qed.

Lemma acl_key_policy_shape env fid ozone_service bucket buckets :
  Forall (target_shape fid buckets)
         (acl_key_policy env fid (fid_path_of env fid) ozone_service bucket).
Proof.
  unfold acl_key_policy.
  destruct (nonempty _); [|constructor].
  destruct (parse_hdfs_facl_full_permissions _); [constructor|].
  constructor; [|constructor]. right; right. by exists bucket, "*".
Qed.

Lemma create_ozone_policies_from_hdfs_acls_shape env fid ozone_service :
  Forall (target_shape fid (get_hdfs_subdirs env (fid_path_of env fid)))
         (create_ozone_policies_from_hdfs_acls env fid ozone_service).
Proof.
  unfold create_ozone_policies_from_hdfs_acls. fold (fid_path_of env fid).
  destruct (negb _); [constructor|].
  destruct (parse_hdfs_facl _) as [volume_users volume_groups].
  assert (∀ description items,
    target_shape fid (get_hdfs_subdirs env (fid_path_of env fid))
      (mkPolicy None None None (Some ozone_service)
         (Some (fid +:+ "_volume_policy_from_hdfs_acls")) description
         (Some {[ "volume" := res_values [fid] ]}) items)) as Hvol by (intros; by left).
  destruct (get_hdfs_subdirs env (fid_path_of env fid)) as [|b bs] eqn:Hsub.
  - destruct volume_users, volume_groups; repeat constructor.
  - assert (Forall (target_shape fid (b :: bs))
              ((b :: bs) ≫= acl_key_policy env fid (fid_path_of env fid) ozone_service))
      as Hkeys.
    { apply Forall_forall. intros p Hp.
      apply list_elem_of_bind in Hp as (bucket & Hp & _).
      revert p Hp. apply Forall_forall, acl_key_policy_shape. }
    destruct volume_users, volume_groups; [constructor|..];
      (constructor; [by left|]); (constructor; [by right; left|]); exact Hkeys.
Qed.

End target_policies.

(** C3, as stated, fails: for one policy with key paths under the buckets
    [raw] and [work], the CONTAINER-level policy names both buckets. *)
Lemma one_volume_one_bucket_counterexample :
  ¬ Forall one_volume_one_bucket
      (convert_hdfs_policies_for_fid "fid1"
         [hdfs_policy "fid1_keys" ["/data/fid1/raw/k1"; "/data/fid1/work/k2"]
            [grant_item ["alice"] [] ["read"]]]
         "ozone").
Proof. apply (bool_decide_unpack _). vm_compute. exact I. Qed.

(** C3, amended. Every policy emitted by the synthesis and by the fallback
    resolver names exactly one volume, the root identifier; one that has a
    key resource names exactly one bucket; a bucket resource is never empty.
    The CONTAINER-level policy (bucket resource, no key) names every
    collected container: the whole set of collected bucket names in the
    synthesis, the whole directory listing in the fallback. *)
Theorem target_policies_volume_and_bucket (env : Env) (fid : string)
    (hdfs_policies : list Policy) (ozone_service : string) :
  let synthesized := convert_hdfs_policies_for_fid fid hdfs_policies ozone_service in
  let resolved := create_ozone_policies_from_hdfs_acls env fid ozone_service in
  Forall (volume_and_key_bucket fid) (synthesized ++ resolved)
  ∧ Forall (λ policy, resource_values "bucket" policy
                      = elements (collected_buckets fid hdfs_policies))
           (container_level synthesized)
  ∧ Forall (λ policy, resource_values "bucket" policy
                      = get_hdfs_subdirs env (fid_path_of env fid))
           (container_level resolved).
Proof.
  intros synthesized resolved.
  pose proof (convert_hdfs_policies_shape fid hdfs_policies ozone_service) as Hs.
  pose proof (create_ozone_policies_from_hdfs_acls_shape env fid ozone_service) as Hr.
  fold synthesized in Hs. fold resolved in Hr.
  split; [|split].
  - apply Forall_app_2.
    + eapply Forall_impl; [exact Hs|]. intros p Hp.
      exact (proj1 (target_shape_invariant _ _ _ Hp)).
    + eapply Forall_impl; [exact Hr|]. intros p Hp.
      exact (proj1 (target_shape_invariant _ _ _ Hp)).
  - apply Forall_forall. intros p [Hp Hin]%list_elem_of_filter.
    rewrite Forall_forall in Hs.
    exact (proj2 (target_shape_invariant fid _ p (Hs p Hin)) Hp).
  - apply Forall_forall. intros p [Hp Hin]%list_elem_of_filter.
    rewrite Forall_forall in Hr.
    exact (proj2 (target_shape_invariant fid _ p (Hr p Hin)) Hp).
Qed.

(** C5: the code at a CONTAINER-level policy whose only path has exactly 4
    segments.  The policy is put in the bucket partition, yet no bucket name
    is extracted from its path, none is collected, and the synthesis emits
    the ROOT-level policy alone. *)
Lemma container_path_bucket_not_collected :
  let policy := hdfs_policy "fid2_raw" ["/data/fid2/raw"] [grant_item ["alice"] [] ["read"]] in
  bucket_policies (categorize_hdfs_policies [policy]) = [policy]
  ∧ extract_bucket_and_key_from_path "/data/fid2/raw" "fid2" = (None, None)
  ∧ collected_buckets "fid2" [policy] = ∅
  ∧ convert_hdfs_policies_for_fid "fid2" [policy] "ozone"
    = [create_ozone_volume_policy "fid2" ["alice"] [] [] "ozone"].
Proof. repeat split; vm_compute; reflexivity. Qed.

(** C9: the code at a policy of the root identifier [fid10] when the
    selection runs for [fid1].  The policy is selected, because its path
    starts with [/data/fid1], and its principal [bob] is granted read on the
    volume [fid1]. *)
Lemma selection_takes_longer_identifier :
  let own := hdfs_policy "fid1_root" ["/data/fid1"] [grant_item ["alice"] [] ["read"]] in
  let other := hdfs_policy "fid10_raw" ["/data/fid10/raw/k1"] [grant_item ["bob"] [] ["read"]] in
  extract_fid_from_path "/data/fid10/raw/k1" = Some "fid10"
  ∧ get_hdfs_policies_for_fid "fid1" [own; other] = [own; other]
  ∧ convert_hdfs_policies_for_fid "fid1" (get_hdfs_policies_for_fid "fid1" [own; other]) "ozone"
    = [create_ozone_volume_policy "fid1" (elements ({[ "alice"; "bob" ]} : gset string))
         [] [] "ozone"].
Proof. repeat split; vm_compute; reflexivity. Qed.

(** ** Properties of the run over all root identifiers *)

Section run.

Variables (env : Env) (hdfs_policies : list Policy) (ozone_service : string).

Implicit Types (st : Run) (fid : string) (fids : list string).

Lemma process_fid_call_for st fid :
  process_fid env hdfs_policies ozone_service st fid =
    mkRun (all_ozone_policies st
             ++ (call_for env hdfs_policies fid
                   ≫= call_result env hdfs_policies ozone_service))
          (calls st ++ call_for env hdfs_policies fid).
Proof.
  unfold process_fid, call_for.
  destruct (get_hdfs_policies_for_fid fid hdfs_policies) as [|p ps] eqn:E.
  - destruct (is_hdfs_acl_fallback_enabled env); simpl.
    + rewrite app_nil_r.
      destruct (create_ozone_policies_from_hdfs_acls env fid ozone_service); simpl;
        by rewrite ?app_nil_r.
    + destruct st. simpl. by rewrite !app_nil_r.
  - simpl. by rewrite E, app_nil_r.
Qed.

(** The whole loop: the calls in the order of the identifiers, and the
    accumulated policies as the results of these calls. *)
Lemma foldl_process_fid fids st :
  foldl (process_fid env hdfs_policies ozone_service) st fids =
    mkRun (all_ozone_policies st
             ++ ((fids ≫= call_for env hdfs_policies)
                   ≫= call_result env hdfs_policies ozone_service))
          (calls st ++ (fids ≫= call_for env hdfs_policies)).
Proof.
  revert st. induction fids as [|fid fids IH]; intros st.
  - destruct st. simpl. by rewrite !app_nil_r.
  - simpl foldl. rewrite IH, process_fid_call_for.
    cbn [all_ozone_policies calls].
    rewrite bind_cons, bind_app, <- !app_assoc. done.
Qed.

Lemma call_fid_call_for fid c :
  c ∈ call_for env hdfs_policies fid → call_fid c = fid.
Proof.
  unfold call_for.
  destruct (get_hdfs_policies_for_fid fid hdfs_policies);
    [destruct (is_hdfs_acl_fallback_enabled env)|];
    intros H; try (by apply not_elem_of_nil in H);
    by apply list_elem_of_singleton in H as ->.
Qed.

Lemma call_fids_sublist fids :
  call_fid <$> (fids ≫= call_for env hdfs_policies) `sublist_of` fids.
Proof.
  induction fids as [|fid fids IH]; [constructor|].
  rewrite bind_cons, fmap_app.
  unfold call_for at 1.
  destruct (get_hdfs_policies_for_fid fid hdfs_policies);
    [destruct (is_hdfs_acl_fallback_enabled env)|]; simpl;
    (by apply sublist_skip) || (by apply sublist_cons).
Qed.

Lemma elem_of_calls fids c :
  c ∈ fids ≫= call_for env hdfs_policies ↔
    call_fid c ∈ fids ∧ c ∈ call_for env hdfs_policies (call_fid c).
Proof.
  rewrite list_elem_of_bind. split.
  - intros (fid & Hc & Hfid). by rewrite (call_fid_call_for fid c Hc).
  - intros [Hfid Hc]. eauto.
Qed.

Lemma fids_to_process_NoDup include_fids exclude_fids :
  NoDup (fids_to_process env hdfs_policies include_fids exclude_fids).
Proof.
  unfold fids_to_process. rewrite merge_sort_Permutation. apply NoDup_elements.
Qed.

End run.

(** C6. In a run, each root identifier is served by one source at most and
    by one call at most.  The source-policy translation is called for the
    identifiers to process that have a selected source policy, and for them
    only; the fallback resolver is called for the identifiers to process
    that have none, and only when the fallback is enabled; the policies of
    the run are the results of these calls, in their order. *)
Theorem one_source_per_identifier (env : Env) (hdfs_policies : list Policy)
    (ozone_service : string) (include_fids exclude_fids : list string) :
  let run := convert_all_hdfs_policies env hdfs_policies ozone_service
               include_fids exclude_fids in
  let fids := fids_to_process env hdfs_policies include_fids exclude_fids in
  NoDup (call_fid <$> calls run)
  ∧ (∀ fid, Call_convert_hdfs_policies_for_fid fid ∈ calls run ↔
            fid ∈ fids ∧ get_hdfs_policies_for_fid fid hdfs_policies ≠ [])
  ∧ (∀ fid, Call_create_ozone_policies_from_hdfs_acls fid ∈ calls run ↔
            fid ∈ fids ∧ get_hdfs_policies_for_fid fid hdfs_policies = []
            ∧ is_hdfs_acl_fallback_enabled env = true)
  ∧ all_ozone_policies run = calls run ≫= call_result env hdfs_policies ozone_service.
Proof.
  intros run fids. subst run. unfold convert_all_hdfs_policies.
  fold fids. rewrite foldl_process_fid. cbn [all_ozone_policies calls app].
  split; [|split; [|split]].
  - eapply sublist_NoDup; [apply fids_to_process_NoDup|apply call_fids_sublist].
  - intros fid. rewrite elem_of_calls. cbn [call_fid]. unfold call_for.
    destruct (get_hdfs_policies_for_fid fid hdfs_policies) as [|p ps];
      [destruct (is_hdfs_acl_fallback_enabled env)|];
      rewrite ?list_elem_of_singleton, ?elem_of_nil; intuition congruence.
  - intros fid. rewrite elem_of_calls. cbn [call_fid]. unfold call_for.
    destruct (get_hdfs_policies_for_fid fid hdfs_policies) as [|p ps];
      [destruct (is_hdfs_acl_fallback_enabled env)|];
      rewrite ?list_elem_of_singleton, ?elem_of_nil; intuition congruence.
  - reflexivity.
Qed.

(** ** Properties of the principal-preserving cloner *)

Section cloner.

Implicit Types (st : CloneState) (resources : gmap string Resource)
  (kind tag : string) (policy : Policy).

(** A fragment depends on the resource of its own kind only. *)
Lemma declared_values_ext kind resources resources' :
  resources !! kind = resources' !! kind →
  declared_values kind resources = declared_values kind resources'.
Proof. unfold declared_values. by intros ->. Qed.

Lemma clone_database_parts ozone_prefix st :
  new_name_parts (clone_database ozone_prefix st)
  = new_name_parts st ++ db_fragment ozone_prefix (cs_resources st).
Proof.
  unfold clone_database, db_fragment, declared_values.
  destruct (cs_resources st !! "database") as [r|]; [|by rewrite app_nil_r].
  destruct (r_values r); [done|by rewrite app_nil_r].
Qed.

Lemma clone_database_lookup ozone_prefix st kind :
  kind ≠ "database" →
  cs_resources (clone_database ozone_prefix st) !! kind = cs_resources st !! kind.
Proof.
  intros Hk. unfold clone_database.
  destruct (cs_resources st !! "database") as [r|]; [|done].
  destruct (r_values r); [|done]. simpl. by rewrite lookup_insert_ne.
Qed.

Lemma clone_url_parts ozone_service_id st :
  new_name_parts (clone_url ozone_service_id st)
  = new_name_parts st ++ url_fragment ozone_service_id (cs_resources st).
Proof.
  unfold clone_url, url_fragment, declared_values.
  destruct (cs_resources st !! "url") as [r|]; [|by rewrite app_nil_r].
  destruct (r_values r) as [[|u us]|]; simpl; by rewrite ?app_nil_r.
Qed.

Lemma clone_url_lookup ozone_service_id st kind :
  kind ≠ "url" →
  cs_resources (clone_url ozone_service_id st) !! kind = cs_resources st !! kind.
Proof.
  intros Hk. unfold clone_url.
  destruct (cs_resources st !! "url") as [r|]; [|done].
  destruct (r_values r); [|done]. simpl. by rewrite lookup_insert_ne.
Qed.

Lemma clone_skip_wildcard_spec kind tag st :
  clone_skip_wildcard kind tag st
  = mkCloneState (cs_resources st)
      (new_name_parts st ++ skip_wildcard_fragment kind tag (cs_resources st)).
Proof.
  unfold clone_skip_wildcard, skip_wildcard_fragment. destruct st as [m parts]. simpl.
  destruct (declared_values kind m) as [vs|]; [|by rewrite app_nil_r].
  destruct (list_truthy vs && bool_decide (vs ≠ ["*"])); by rewrite ?app_nil_r.
Qed.

Lemma clone_udf_spec st :
  clone_udf st
  = mkCloneState (cs_resources st) (new_name_parts st ++ udf_fragment (cs_resources st)).
Proof.
  unfold clone_udf, udf_fragment. destruct st as [m parts]. simpl.
  destruct (declared_values "udf" m) as [vs|]; [|by rewrite app_nil_r].
  destruct (list_truthy vs); by rewrite ?app_nil_r.
Qed.

(** The resources of a clone: only the database and the url change. *)
Lemma clone_resources_lookup resources ozone_prefix ozone_service_id kind :
  kind ≠ "database" → kind ≠ "url" →
  cs_resources (clone_resources resources ozone_prefix ozone_service_id) !! kind
  = resources !! kind.
Proof.
  intros Hd Hu. unfold clone_resources.
  rewrite clone_udf_spec, !clone_skip_wildcard_spec. cbn [cs_resources].
  by rewrite clone_url_lookup, clone_database_lookup.
Qed.

(** The fragments of a clone, in the fixed order of the kinds. *)
Lemma clone_resources_parts resources ozone_prefix ozone_service_id :
  new_name_parts (clone_resources resources ozone_prefix ozone_service_id)
  = db_fragment ozone_prefix resources
    ++ url_fragment ozone_service_id resources
    ++ skip_wildcard_fragment "table" "tbl" resources
    ++ skip_wildcard_fragment "column" "col" resources
    ++ udf_fragment resources.
Proof.
  unfold clone_resources.
  rewrite clone_udf_spec, !clone_skip_wildcard_spec. cbn [cs_resources new_name_parts].
  rewrite clone_url_parts, clone_database_parts. cbn [cs_resources new_name_parts app].
  unfold url_fragment, skip_wildcard_fragment, udf_fragment.
  rewrite (declared_values_ext "url" _ resources)
    by (by apply clone_database_lookup).
  rewrite (declared_values_ext "table" _ resources),
          (declared_values_ext "column" _ resources),
          (declared_values_ext "udf" _ resources)
    by (by rewrite clone_url_lookup, clone_database_lookup).
  by rewrite <- !app_assoc.
Qed.

Lemma resource_values_declared kind policy vs :
  resource_values kind policy = vs → vs ≠ [] →
  declared_values kind (default ∅ (p_resources policy)) = Some vs.
Proof.
  unfold resource_values, declared_values.
  destruct (p_resources policy) as [m|]; simpl; [|congruence].
  destruct (m !! kind) as [r|]; [|congruence].
  destruct (r_values r); simpl; congruence.
Qed.

Lemma without_resource_resources kind policy :
  default ∅ (p_resources (without_resource kind policy))
  = delete kind (default ∅ (p_resources policy)).
Proof. simpl. destruct (p_resources policy); simpl; [done|by rewrite delete_empty]. Qed.

Lemma clone_hive_policy_name policy ozone_prefix ozone_service_id :
  p_name (clone_hive_policy policy ozone_prefix ozone_service_id)
  = Some (if list_truthy (name_fragments policy ozone_prefix ozone_service_id)
          then Py.join "," (name_fragments policy ozone_prefix ozone_service_id)
          else ozone_prefix +:+ "_" +:+ default EmptyString (p_name policy)).
Proof. reflexivity. Qed.

(** A table or column resource that is the single wildcard: the fragments
    are those of the resources without it. *)
Lemma fragments_without_wildcard kind resources ozone_prefix ozone_service_id :
  kind = "table" ∨ kind = "column" →
  declared_values kind resources = Some ["*"] →
  new_name_parts (clone_resources resources ozone_prefix ozone_service_id)
  = new_name_parts (clone_resources (delete kind resources) ozone_prefix ozone_service_id).
Proof.
  intros Hk Hw. rewrite !clone_resources_parts.
  unfold db_fragment, url_fragment, skip_wildcard_fragment, udf_fragment.
  assert (declared_values kind (delete kind resources) = None) as Hnone.
  { unfold declared_values. by rewrite lookup_delete_eq. }
  destruct Hk as [-> | ->]; rewrite Hw, Hnone; simpl;
    repeat match goal with
      | |- context [declared_values ?k (delete ?k' resources)] =>
          rewrite (declared_values_ext k (delete k' resources) resources)
            by (by apply lookup_delete_ne)
      end; reflexivity.
Qed.

Lemma clone_keeps_resource policy ozone_prefix ozone_service_id kind :
  kind ≠ "database" → kind ≠ "url" →
  resource_values kind (clone_hive_policy policy ozone_prefix ozone_service_id)
  = resource_values kind policy.
Proof.
  intros Hd Hu. unfold resource_values, clone_hive_policy. simpl.
  destruct (p_resources policy) as [m|]; [|done]. simpl.
  by rewrite clone_resources_lookup.
Qed.

End cloner.

(** C7, as stated, fails for the udf resource: a policy whose udf resource
    is the single wildcard gets the fragment [udf=*] in its name. *)
Lemma wildcard_dropped_from_name_counterexample :
  ¬ wildcard_dropped_from_name "udf"
      (hive_policy "fin_udfs" [("database", ["fin"]); ("udf", ["*"])]) "oz" "sid".
Proof.
  unfold wildcard_dropped_from_name. intros H.
  assert (resource_values "udf" (hive_policy "fin_udfs" [("database", ["fin"]); ("udf", ["*"])])
          = ["*"]) as Hw by (vm_compute; reflexivity).
  specialize (H Hw). vm_compute in H. discriminate H.
Qed.

(** C7, amended. The name of a clone is its fragments joined by commas, or
    [{prefix}_{original name}] when there is none.  A table or column
    resource that is the single wildcard contributes no fragment (the clone
    is named as if the resource were absent) and stays in the resources of
    the clone.  Non-empty table and column values other than the single
    wildcard contribute [tbl=...] and [col=...]; non-empty udf values
    contribute [udf=...], the single wildcard included. *)
Theorem clone_name_wildcards (policy : Policy) (ozone_prefix ozone_service_id : string) :
  let cloned := clone_hive_policy policy ozone_prefix ozone_service_id in
  let fragments := name_fragments policy ozone_prefix ozone_service_id in
  p_name cloned
  = Some (if list_truthy fragments then Py.join "," fragments
          else ozone_prefix +:+ "_" +:+ default EmptyString (p_name policy))
  ∧ (∀ kind, kind ∈ ["table"; "column"] →
       wildcard_dropped_from_name kind policy ozone_prefix ozone_service_id
       ∧ resource_values kind cloned = resource_values kind policy)
  ∧ (∀ kind tag vs,
       (kind, tag) ∈ [("table", "tbl"); ("column", "col"); ("udf", "udf")] →
       resource_values kind policy = vs → vs ≠ [] → (vs = ["*"] → kind = "udf") →
       tag +:+ "=" +:+ Py.join "," vs ∈ fragments).
Proof.
  intros cloned fragments. split; [reflexivity|split].
  - intros kind Hk.
    assert (kind = "table" ∨ kind = "column") as Hk'.
    { repeat (apply elem_of_cons in Hk as [Hk|Hk]; [auto|]). by apply elem_of_nil in Hk. }
    split.
    + intros Hw. rewrite !clone_hive_policy_name. unfold name_fragments.
      rewrite without_resource_resources.
      rewrite <- (fragments_without_wildcard kind) by
        (try done; by apply resource_values_declared).
      done.
    + apply clone_keeps_resource; destruct Hk' as [-> | ->]; done.
  - intros kind tag vs Hk Hvs Hne Hwild.
    apply resource_values_declared in Hvs; [|done].
    subst fragments. unfold name_fragments. rewrite clone_resources_parts.
    assert (list_truthy vs = true) as Ht by (by destruct vs).
    repeat (apply elem_of_cons in Hk as [[= -> ->]|Hk]); [| | |by apply elem_of_nil in Hk].
    + rewrite !elem_of_app. right; right; left.
      unfold skip_wildcard_fragment. rewrite Hvs, Ht.
      rewrite bool_decide_eq_true_2 by (intros ->; by specialize (Hwild eq_refl)).
      by apply list_elem_of_singleton.
    + rewrite !elem_of_app. right; right; right; left.
      unfold skip_wildcard_fragment. rewrite Hvs, Ht.
      rewrite bool_decide_eq_true_2 by (intros ->; by specialize (Hwild eq_refl)).
      by apply list_elem_of_singleton.
    + rewrite !elem_of_app. right; right; right; right.
      unfold udf_fragment. rewrite Hvs, Ht.
      by apply list_elem_of_singleton.
Qed.

(** ** The embedding on concrete inputs *)

Example split_path : Py.split "/" (Py.rstrip "/" "/data/fid1/raw//") = [EmptyString; "data"; "fid1"; "raw"].
Proof. reflexivity. Qed.

Example split_empty : Py.split "/" EmptyString = [EmptyString].
Proof. reflexivity. Qed.

Example splitlines_boundaries :
  Py.splitlines (String "a" (String "010" (String "013" (String "010" (String "b" (String "010" EmptyString))))))
  = ["a"; EmptyString; "b"].
Proof. reflexivity. Qed.

Example replace_leftmost : Py.replace "/data/" "/" "a/data/data/b/data/" = "a/data/b/".
Proof. reflexivity. Qed.

Example path_levels :
  path_level "/data/fid1" = Some VOLUME
  ∧ path_level "/data/fid1/raw" = Some BUCKET
  ∧ path_level "/data/fid1/raw/k1" = Some KEY
  ∧ path_level "/data/fid1/raw/k1/k2/" = Some KEY
  ∧ path_level "/data" = None.
Proof. repeat split; reflexivity. Qed.

Example bucket_and_key :
  extract_bucket_and_key_from_path "/data/fid1/raw/key1/subkey" "fid1"
  = (Some "raw", Some "key1/subkey").
Proof. reflexivity. Qed.

Example url_search :
  hdfs_pattern_search "see hdfs://nn1:8020/data/fid1/work/hive/db1/t1 there"
  = Some ("fid1", "work", "db1")
  ∧ hdfs_pattern_search "hdfs://nn1/data/fid1/rawx/hive/db1" = None.
Proof. split; reflexivity. Qed.

Example url_rewrite :
  transform_url "oz1" " hdfs://nn1/data/fid1/raw/hive/db1 " = "ofs://oz1/fid1/raw/hive/db1"
  ∧ transform_url "oz1" "hdfs://nn1/other/data/x" = "ofs://oz1/nn1/other/x".
Proof. split; reflexivity. Qed.

Example sorted_identifiers :
  merge_sort String.le ["fid2"; "fid10"; "fid1"; "Fid3"] = ["Fid3"; "fid1"; "fid10"; "fid2"].
Proof. reflexivity. Qed.

(** A clone with a wildcard table, a specific column and no udf. *)
Example clone_name :
  p_name (clone_hive_policy
            (hive_policy "fin_select"
               [("database", ["fin"]); ("table", ["*"]); ("column", ["c1"; "c2"])])
            "oz" "oz1")
  = Some "db=oz_fin,col=c1,c2"
  ∧ p_name (clone_hive_policy (hive_policy "fin_select" [("table", ["*"])]) "oz" "oz1")
    = Some "oz_fin_select".
Proof. split; vm_compute; reflexivity. Qed.

(** The fallback on [fid9_env]: the owner reads the volume and the bucket
    list, the group [svc] gets read and list on the keys of [managed]. *)
Example fallback_scenario :
  create_ozone_policies_from_hdfs_acls fid9_env "fid9" "ozone"
  = [ mkPolicy None None None (Some "ozone") (Some "fid9_volume_policy_from_hdfs_acls")
        (Some "Created from HDFS ACLs for /data/fid9")
        (Some {[ "volume" := res_values ["fid9"] ]})
        (Some [read_item ["bob"] [] []]);
      mkPolicy None None None (Some "ozone") (Some "fid9_bucket_policy_from_hdfs_acls")
        (Some "Created from HDFS ACLs for buckets: managed")
        (Some (<[ "bucket" := res_values ["managed"] ]> {[ "volume" := res_values ["fid9"] ]}))
        (Some [read_item ["bob"] [] []]);
      mkPolicy None None None (Some "ozone") (Some "fid9_managed_key_policy_from_hdfs_acls")
        (Some "Created from HDFS ACLs for /data/fid9/managed")
        (Some (<[ "key" := res_recursive ["*"] ]>
                 (<[ "bucket" := res_values ["managed"] ]>
                    {[ "volume" := res_values ["fid9"] ]})))
        (Some [mkPolicyItem (Some [allow "read"; allow "list"]) (Some []) (Some ["svc"])
                 (Some [])]) ].
Proof. vm_compute. reflexivity. Qed.

(** A run over [fid9_env] with a source policy for [fid2] and a request for
    [fid9]: one call for each, the translation for [fid2] and the fallback
    for [fid9]. *)
Example run_calls :
  calls (convert_all_hdfs_policies fid9_env
           [hdfs_policy "fid2_keys" ["/data/fid2/raw/k1"] [grant_item [] ["eng"] ["read"; "write"]]]
           "ozone" ["fid2"; "fid9"] [])
  = [Call_convert_hdfs_policies_for_fid "fid2";
     Call_create_ozone_policies_from_hdfs_acls "fid9"].
Proof. vm_compute. reflexivity. Qed.

(** ** Further properties of the permission model translator *)

Section translator_more.

Implicit Types (l : list Access) (k : string) (a : Access).

Lemma kinds_app l1 l2 : kinds (l1 ++ l2) = kinds l1 ++ kinds l2.
Proof. unfold kinds. apply omap_app. Qed.

Lemma kinds_copied_sublist l : kinds (l ≫= copied) `sublist_of` kinds l.
Proof.
  induction l as [|a l IH]; [constructor|].
  rewrite bind_cons, kinds_app. unfold copied at 1.
  change (kinds (a :: l)) with (match acc_type a with
                                | Some k => k :: kinds l
                                | None => kinds l
                                end).
  repeat case_decide; simpl;
    repeat match goal with H : acc_type a = Some _ |- _ => rewrite H end;
    try (by apply sublist_skip).
  destruct (acc_type a); [by apply sublist_cons|done].
Qed.

Lemma kinds_map_combinations (r w x : bool) acc :
  kinds (map_combinations r w x acc)
  = kinds acc ++ (if r && x then ["list"] else []) ++ (if w && x then ["create"; "delete"] else []).
Proof.
  unfold map_combinations.
  destruct (r && x), (w && x); rewrite ?kinds_app; simpl;
    by rewrite <- ?app_assoc, ?app_nil_r.
Qed.

Lemma posix_grants_kind k (posix_perms : string) :
  has_kind k (posix_grants posix_perms)
  = if decide (k = "read") then Py.char_in "r" posix_perms
    else if decide (k = "write") then Py.char_in "w" posix_perms
    else if decide (k = "execute") then Py.char_in "x" posix_perms
    else false.
Proof.
  unfold has_kind, posix_grants. apply eq_true_iff_eq. rewrite bool_decide_eq_true.
  rewrite !grants_app.
  destruct (Py.char_in "r" posix_perms), (Py.char_in "w" posix_perms),
    (Py.char_in "x" posix_perms);
    rewrite ?grants_allow, ?grants_nil_iff; repeat case_decide; subst;
    intuition congruence.
Qed.

End translator_more.

(** X1. The translator keeps the invariant of a policy item: when no
    permission kind occurs twice in the input grants, none occurs twice in
    the output. *)
Theorem translation_keeps_kinds_distinct (hdfs_accesses : list Access) :
  NoDup (kinds hdfs_accesses) →
  NoDup (kinds (convert_permissions_hdfs_to_ozone hdfs_accesses)).
Proof.
  intros Hnd. rewrite convert_permissions_unfold, kinds_map_combinations.
  assert (NoDup (kinds (hdfs_accesses ≫= copied))) as Hc
    by (eapply sublist_NoDup; [exact Hnd|apply kinds_copied_sublist]).
  assert (∀ k, k ∈ kinds (hdfs_accesses ≫= copied) → k = "read" ∨ k = "write") as Hrw.
  { intros k Hk. apply (grants_copied k) in Hk. tauto. }
  apply NoDup_app. split; [exact Hc|]. split.
  - intros k Hk Hin. apply Hrw in Hk.
    destruct (_ && _), (_ && _); simpl in Hin;
      repeat (apply elem_of_cons in Hin as [->|Hin]; [destruct Hk; discriminate|]);
      by apply elem_of_nil in Hin.
  - destruct (_ && _), (_ && _); simpl; repeat constructor;
      rewrite ?elem_of_cons, ?elem_of_nil; intuition discriminate.
Qed.

(** One read grant, one denied write grant and one execute grant: five
    distinct kinds come out. *)
Lemma translation_keeps_kinds_distinct_witness :
  let l := [allow "read"; mkAccess (Some "write") false; allow "execute"] in
  NoDup (kinds l) ∧ NoDup (kinds (convert_permissions_hdfs_to_ozone l)).
Proof.
  intros l.
  assert (NoDup (kinds l)) as H by (apply (bool_decide_unpack _); vm_compute; exact I).
  split; [exact H|]. exact (translation_keeps_kinds_distinct l H).
Defined.

(** X2. The two translators agree: translating an rwx string gives what
    translating the grant list of its bits gives, and the result is a
    sub-sequence of read, write, list, create, delete (each at most once,
    in this order). *)
Theorem posix_translation_agrees (posix_perms : string) :
  convert_posix_to_ozone_permissions posix_perms
  = convert_permissions_hdfs_to_ozone (posix_grants posix_perms)
  ∧ convert_posix_to_ozone_permissions posix_perms
    `sublist_of` [allow "read"; allow "write"; allow "list"; allow "create"; allow "delete"].
Proof.
  split.
  - rewrite convert_permissions_unfold, !posix_grants_kind. simpl.
    unfold convert_posix_to_ozone_permissions, posix_grants.
    destruct (Py.char_in "r" posix_perms), (Py.char_in "w" posix_perms),
      (Py.char_in "x" posix_perms); reflexivity.
  - unfold convert_posix_to_ozone_permissions, map_combinations.
    destruct (Py.char_in "r" posix_perms), (Py.char_in "w" posix_perms),
      (Py.char_in "x" posix_perms); simpl;
      repeat first [apply sublist_nil | apply sublist_skip | apply sublist_cons].
Qed.

(** ** Further properties of the path classifier *)

Section classifier_more.

Implicit Types (s t : string) (c : ascii) (p : ascii → bool).

Lemma string_app_nil_r s : s +:+ EmptyString = s.
Proof.
  induction s as [|d s IH]; [done|].
  change (String d (s +:+ EmptyString) = String d s). by rewrite IH.
Qed.

Lemma string_app_cons d s t : String d s +:+ t = String d (s +:+ t).
Proof. reflexivity. Qed.

(** A final separator is stripped with the others. *)
Lemma rstrip_by_app_stripped p s c :
  p c = true → Py.rstrip_by p (s +:+ String c EmptyString) = Py.rstrip_by p s.
Proof.
  intros Hc. induction s as [|d s IH].
  - simpl. change (EmptyString +:+ String c EmptyString) with (String c EmptyString).
    simpl. by rewrite Hc.
  - rewrite string_app_cons. simpl. by rewrite IH.
Qed.

(** Nothing is stripped from a string that does not end with a stripped
    character. *)
Lemma rstrip_by_app_fixed p s t :
  Py.rstrip_by p t = t → t ≠ EmptyString → Py.rstrip_by p (s +:+ t) = s +:+ t.
Proof.
  intros Ht Hne. induction s as [|d s IH]; [exact Ht|].
  rewrite string_app_cons. simpl. rewrite IH.
  destruct (s +:+ t) eqn:E; [|done].
  destruct s; [|discriminate E]. by destruct t.
Qed.

(** The span of a prefix whose characters all satisfy [p], before a
    character that does not. *)
Lemma span_all_chars p s c t :
  all_chars p s = true → p c = false →
  Py.span p (s +:+ String c t) = (s, String c t).
Proof.
  intros Hs Hc. induction s as [|d s IH].
  - change (EmptyString +:+ String c t) with (String c t). simpl. by rewrite Hc.
  - rewrite string_app_cons. simpl in *. apply andb_true_iff in Hs as [Hd Hs].
    by rewrite Hd, (IH Hs).
Qed.

Lemma span_all_chars_end p s :
  all_chars p s = true → Py.span p s = (s, EmptyString).
Proof.
  induction s as [|d s IH]; [done|]. simpl. intros [Hd Hs]%andb_true_iff.
  by rewrite Hd, (IH Hs).
Qed.

Lemma strip_prefix_app (pre s : string) : Py.strip_prefix pre (pre +:+ s) = Some s.
Proof.
  induction pre as [|d pre IH]; [done|].
  rewrite string_app_cons. simpl. by case_decide.
Qed.

Lemma not_slash_slash : not_slash "/" = false.
Proof. reflexivity. Qed.

End classifier_more.

(** X3. A trailing separator changes neither the level of a path nor the
    bucket and key read from it. *)
Theorem trailing_separator_ignored (path fid : string) :
  path_level (path +:+ "/") = path_level path
  ∧ extract_bucket_and_key_from_path (path +:+ "/") fid
    = extract_bucket_and_key_from_path path fid.
Proof.
  unfold path_level, extract_bucket_and_key_from_path, Py.rstrip.
  by rewrite rstrip_by_app_stripped.
Qed.

(** X4. The root identifier is read back from a path built on it: for a
    non-empty identifier without separator, [/data/<fid>] and
    [/data/<fid>/<rest>] both give [fid]. *)
Theorem extract_fid_round_trip (fid rest : string) :
  nonempty fid = true → all_chars not_slash fid = true →
  extract_fid_from_path ("/data/" +:+ fid) = Some fid
  ∧ extract_fid_from_path ("/data/" +:+ fid +:+ "/" +:+ rest) = Some fid.
Proof.
  intros Hne Hall. unfold extract_fid_from_path. rewrite !strip_prefix_app.
  rewrite (span_all_chars_end _ _ Hall).
  change (fid +:+ "/" +:+ rest) with (fid +:+ String "/" rest).
  rewrite (span_all_chars _ _ _ _ Hall not_slash_slash).
  by destruct fid.
Qed.

Lemma extract_fid_round_trip_witness :
  nonempty "fid7" = true ∧ all_chars not_slash "fid7" = true
  ∧ extract_fid_from_path ("/data/" +:+ "fid7") = Some "fid7"
  ∧ extract_fid_from_path ("/data/" +:+ "fid7" +:+ "/" +:+ "raw/x") = Some "fid7".
Proof.
  split; [reflexivity|split; [reflexivity|]].
  exact (extract_fid_round_trip "fid7" "raw/x" eq_refl eq_refl).
Defined.

(** X5. Bucket and key are read back from a key path built on them: for a
    plain identifier, a non-empty bucket without separator and a non-empty
    key without line feed and without trailing separator,
    [/data/<fid>/<bucket>/<key>] gives the bucket and the key. *)
Theorem extract_bucket_and_key_round_trip (fid bucket key : string) :
  plain_identifier fid = true →
  nonempty bucket = true → all_chars not_slash bucket = true →
  nonempty key = true → all_chars re_dot key = true → Py.rstrip "/" key = key →
  extract_bucket_and_key_from_path ("/data/" +:+ fid +:+ "/" +:+ bucket +:+ "/" +:+ key) fid
  = (Some bucket, Some key).
Proof.
  intros _ Hb Hbs Hk Hkd Hkr. unfold extract_bucket_and_key_from_path.
  assert (key ≠ EmptyString) as Hkne by (by destruct key).
  replace ("/data/" +:+ fid +:+ "/" +:+ bucket +:+ "/" +:+ key)
    with (("/data/" +:+ fid +:+ "/" +:+ bucket +:+ "/") +:+ key)
    by (by rewrite !string_app_assoc).
  unfold Py.rstrip in *. rewrite (rstrip_by_app_fixed _ _ _ Hkr Hkne).
  replace (("/data/" +:+ fid +:+ "/" +:+ bucket +:+ "/") +:+ key)
    with (("/data/" +:+ fid +:+ "/") +:+ (bucket +:+ String "/" key))
    by (rewrite !string_app_assoc; reflexivity).
  rewrite strip_prefix_app, (span_all_chars _ _ _ _ Hbs not_slash_slash).
  destruct bucket as [|c b]; [done|].
  rewrite (span_all_chars_end _ _ Hkd). simpl. by case_decide.
Qed.

Lemma extract_bucket_and_key_round_trip_witness :
  extract_bucket_and_key_from_path
    ("/data/" +:+ "fid1" +:+ "/" +:+ "raw" +:+ "/" +:+ "key1/subkey") "fid1"
  = (Some "raw", Some "key1/subkey").
Proof.
  apply (extract_bucket_and_key_round_trip "fid1" "raw" "key1/subkey"); reflexivity.
Defined.

(** X6. A policy without usable path information (no [resources], no
    [path] resource, no [values], or an empty value list) is selected for no
    root identifier, is put in no partition, and adds no root identifier to
    those of the other policies. *)
Theorem pathless_policy_ignored (policy : Policy) (hdfs_policies : list Policy)
    (fid : string) (level : Level) :
  path_values policy = [] →
  (policy ∉ get_hdfs_policies_for_fid fid hdfs_policies)
  ∧ (policy ∉ partition_of level (categorize_hdfs_policies hdfs_policies))
  ∧ collect_fids (hdfs_policies ++ [policy]) = collect_fids hdfs_policies.
Proof.
  intros Hp. split; [|split].
  - unfold get_hdfs_policies_for_fid. rewrite list_elem_of_filter, Hp. simpl.
    intros [[=] _].
  - unfold categorize_hdfs_policies. rewrite partition_of_foldl.
    assert (partition_of level (mkCategories [] [] []) = []) as -> by (by destruct level).
    simpl. rewrite list_elem_of_filter. unfold first_level. rewrite Hp. simpl.
    intros [[=] _].
  - unfold collect_fids. rewrite foldl_app. simpl. by rewrite Hp.
Qed.

Lemma pathless_policy_ignored_witness :
  let policy := mkPolicy (Some 3) None None (Some "hdfs") (Some "no_resources") None None
                  (Some [grant_item ["alice"] [] ["read"]]) in
  path_values policy = []
  ∧ (policy ∉ get_hdfs_policies_for_fid "fid1" [policy])
  ∧ (policy ∉ partition_of VOLUME (categorize_hdfs_policies [policy]))
  ∧ collect_fids ([policy] ++ [policy]) = collect_fids [policy].
Proof.
  intros policy. split; [reflexivity|].
  exact (pathless_policy_ignored policy [policy] "fid1" VOLUME eq_refl).
Defined.

(** ** Further properties of the selection of root identifiers and of the run *)

Section fids.

Implicit Types (fid : string) (policy : Policy) (hdfs_policies : list Policy).

Lemma extract_fid_truthy (path f : string) :
  extract_fid_from_path path = Some f → truthy (Some f) = true.
Proof.
  unfold extract_fid_from_path.
  destruct (Py.strip_prefix _ _); [|done].
  destruct (Py.span _ _) as [[|? ?] ?]; [done|]. by intros [= <-].
Qed.

(** The inner loop adds the root identifiers of the paths it goes over. *)
Lemma collect_fids_paths fid (paths : list string) (acc : gset string) :
  fid ∈ foldl (λ acc hdfs_path,
                 match extract_fid_from_path hdfs_path with
                 | Some f => if truthy (Some f) then acc ∪ {[ f ]} else acc
                 | None => acc
                 end) acc paths
  ↔ fid ∈ acc ∨ ∃ path, path ∈ paths ∧ extract_fid_from_path path = Some fid.
Proof.
  revert acc. induction paths as [|path paths IH]; intros acc; cbn [foldl].
  - split; [auto|]. intros [H|(path & H & _)]; [done|by apply elem_of_nil in H].
  - rewrite IH. setoid_rewrite elem_of_cons.
    destruct (extract_fid_from_path path) as [f|] eqn:E.
    + rewrite (extract_fid_truthy _ _ E).
      rewrite elem_of_union, elem_of_singleton. split.
      * intros [[H| ->]|(p & H & Hp)]; eauto 6.
      * intros [H|(p & [-> | H] & Hp)]; eauto 6. left; right. congruence.
    + split.
      * intros [H|(p & H & Hp)]; eauto 6.
      * intros [H|(p & [-> | H] & Hp)]; eauto 6. congruence.
Qed.

Lemma collect_fids_foldl fid hdfs_policies (acc : gset string) :
  fid ∈ foldl (λ acc policy,
                 foldl (λ acc hdfs_path,
                          match extract_fid_from_path hdfs_path with
                          | Some f => if truthy (Some f) then acc ∪ {[ f ]} else acc
                          | None => acc
                          end) acc (path_values policy)) acc hdfs_policies
  ↔ fid ∈ acc ∨ ∃ policy, policy ∈ hdfs_policies ∧ declares_root fid policy.
Proof.
  revert acc. induction hdfs_policies as [|policy l IH]; intros acc; cbn [foldl].
  - split; [auto|]. intros [H|(p & H & _)]; [done|by apply elem_of_nil in H].
  - rewrite IH, collect_fids_paths. setoid_rewrite elem_of_cons. unfold declares_root.
    split.
    + intros [[H|H]|(p & H & Hp)]; eauto 6.
    + intros [H|(p & [-> | H] & Hp)]; eauto 6.
Qed.

(** The root identifiers of a set of policies are those its paths give. *)
Lemma elem_of_collect_fids fid hdfs_policies :
  fid ∈ collect_fids hdfs_policies
  ↔ ∃ policy, policy ∈ hdfs_policies ∧ declares_root fid policy.
Proof.
  unfold collect_fids. rewrite collect_fids_foldl. split; [|auto].
  intros [H|H]; [by apply not_elem_of_empty in H|done].
Qed.

Lemma elem_of_get_fids fid hdfs_policies (include_fids exclude_fids : list string) :
  fid ∈ get_fids_from_hdfs_policies hdfs_policies include_fids exclude_fids
  ↔ (∃ policy, policy ∈ hdfs_policies ∧ declares_root fid policy)
    ∧ (fid ∉ exclude_fids)
    ∧ (include_fids = [] ∨ fid ∈ include_fids).
Proof.
  unfold get_fids_from_hdfs_policies. rewrite <- elem_of_collect_fids.
  destruct include_fids as [|i include_fids], exclude_fids as [|e exclude_fids];
    simpl; rewrite ?list_elem_of_filter, elem_of_elements, ?elem_of_nil;
    intuition discriminate.
Qed.

Lemma get_fids_NoDup hdfs_policies (include_fids exclude_fids : list string) :
  NoDup (get_fids_from_hdfs_policies hdfs_policies include_fids exclude_fids).
Proof.
  unfold get_fids_from_hdfs_policies.
  destruct include_fids, exclude_fids; simpl;
    repeat apply NoDup_filter; apply NoDup_elements.
Qed.

Lemma elem_of_fids_to_process env fid hdfs_policies (include_fids exclude_fids : list string) :
  fid ∈ fids_to_process env hdfs_policies include_fids exclude_fids
  ↔ (fid ∉ exclude_fids)
    ∧ (((∃ policy, policy ∈ hdfs_policies ∧ declares_root fid policy)
        ∧ (include_fids = [] ∨ fid ∈ include_fids))
       ∨ (fid ∈ include_fids ∧ is_hdfs_acl_fallback_enabled env = true)).
Proof.
  unfold fids_to_process. rewrite merge_sort_Permutation, elem_of_elements.
  destruct (is_hdfs_acl_fallback_enabled env);
    destruct include_fids as [|i include_fids], exclude_fids as [|e exclude_fids];
    cbn [list_truthy andb];
    rewrite ?elem_of_difference, ?elem_of_union, !elem_of_list_to_set,
      elem_of_get_fids, ?elem_of_nil;
    intuition (try discriminate).
Qed.

Lemma sublist_StronglySorted {A} (R : relation A) (l1 l2 : list A) :
  l1 `sublist_of` l2 → StronglySorted R l2 → StronglySorted R l1.
Proof.
  induction 1 as [|x l1 l2 Hsub IH|x l1 l2 Hsub IH]; intros Hs.
  - constructor.
  - apply StronglySorted_inv in Hs as [Hs Hall]. constructor; [auto|].
    apply Forall_forall. intros y Hy. rewrite Forall_forall in Hall.
    apply Hall. by eapply elem_of_sublist.
  - apply StronglySorted_inv in Hs as [Hs _]. auto.
Qed.

End fids.

(** X7. [get_fids_from_hdfs_policies] returns, each once, the root
    identifiers that some path of some policy gives, that are not excluded
    and, when identifiers to include are given, that are among them: an
    excluded identifier is left out even when it is included. *)
Theorem get_fids_selection (hdfs_policies : list Policy)
    (include_fids exclude_fids : list string) (fid : string) :
  NoDup (get_fids_from_hdfs_policies hdfs_policies include_fids exclude_fids)
  ∧ (fid ∈ get_fids_from_hdfs_policies hdfs_policies include_fids exclude_fids
     ↔ (∃ policy, policy ∈ hdfs_policies ∧ declares_root fid policy)
       ∧ (fid ∉ exclude_fids)
       ∧ (include_fids = [] ∨ fid ∈ include_fids)).
Proof. split; [apply get_fids_NoDup|apply elem_of_get_fids]. Qed.

(** X8. The run goes over the root identifiers in ascending order and no
    call is made for an excluded one; a call is made only for an identifier
    that a path of a policy gives or, the fallback being enabled, that is
    explicitly included. *)
Theorem run_order_and_scope (env : Env) (hdfs_policies : list Policy)
    (ozone_service : string) (include_fids exclude_fids : list string) :
  let run := convert_all_hdfs_policies env hdfs_policies ozone_service
               include_fids exclude_fids in
  StronglySorted String.le (call_fid <$> calls run)
  ∧ Forall (λ c, (call_fid c ∉ exclude_fids)
                 ∧ ((∃ policy, policy ∈ hdfs_policies ∧ declares_root (call_fid c) policy)
                    ∨ (call_fid c ∈ include_fids
                       ∧ is_hdfs_acl_fallback_enabled env = true)))
           (calls run).
Proof.
  intros run. subst run. unfold convert_all_hdfs_policies.
  rewrite foldl_process_fid. cbn [calls app]. split.
  - eapply sublist_StronglySorted; [apply call_fids_sublist|].
    unfold fids_to_process. apply StronglySorted_merge_sort; apply _.
  - apply Forall_forall. intros c [Hc _]%elem_of_calls.
    apply elem_of_fids_to_process in Hc. tauto.
Qed.

(** X9. With no source policy at all, the run is the fallback alone: when
    the fallback is enabled, one call of the resolver for each included
    identifier that is not excluded, in ascending order; when it is
    disabled, no call and no policy. *)
Theorem run_without_source_policies (env : Env) (ozone_service : string)
    (include_fids exclude_fids : list string) :
  let run := convert_all_hdfs_policies env [] ozone_service include_fids exclude_fids in
  calls run
  = (if is_hdfs_acl_fallback_enabled env
     then Call_create_ozone_policies_from_hdfs_acls
            <$> merge_sort String.le
                  (elements (list_to_set include_fids ∖ list_to_set exclude_fids : gset string))
     else [])
  ∧ (is_hdfs_acl_fallback_enabled env = false → all_ozone_policies run = []).
Proof.
  intros run. subst run. unfold convert_all_hdfs_policies.
  rewrite foldl_process_fid. cbn [calls all_ozone_policies app].
  assert (fids_to_process env [] include_fids exclude_fids
          = if is_hdfs_acl_fallback_enabled env
            then merge_sort String.le
                   (elements (list_to_set include_fids ∖ list_to_set exclude_fids
                              : gset string))
            else []) as ->.
  { unfold fids_to_process, get_fids_from_hdfs_policies, collect_fids.
    cbn [foldl]. rewrite elements_empty.
    destruct (is_hdfs_acl_fallback_enabled env);
      destruct include_fids as [|i include_fids], exclude_fids as [|e exclude_fids];
      cbn [list_truthy andb]; rewrite ?filter_nil, ?list_to_set_nil;
      rewrite ?(left_id_L ∅ (∪)), ?difference_empty_L, ?empty_difference_L,
        ?elements_empty; reflexivity. }
  assert (∀ fids, fids ≫= call_for env [] 
                  = if is_hdfs_acl_fallback_enabled env
                    then Call_create_ozone_policies_from_hdfs_acls <$> fids else []) as Hc.
  { intros fids. unfold call_for. simpl.
    induction fids as [|f fids IH]; [by destruct (is_hdfs_acl_fallback_enabled env)|].
    rewrite bind_cons, IH. by destruct (is_hdfs_acl_fallback_enabled env). }
  rewrite Hc. split.
  - by destruct (is_hdfs_acl_fallback_enabled env).
  - by intros ->.
Qed.

(** ** Further properties of the policy synthesizer *)

Section synthesizer_more.

Implicit Types (fid bucket key x : string) (policy : Policy) (hdfs_policies : list Policy).

(** The principals collected are those the items name. *)
Lemma collect_principals_items (field : PolicyItem → option (list string)) x
    (items : list PolicyItem) (acc : gset string) :
  x ∈ foldl (λ acc item, acc ∪ list_to_set (default [] (field item))) acc items
  ↔ x ∈ acc ∨ ∃ item, item ∈ items ∧ x ∈ default [] (field item).
Proof.
  revert acc. induction items as [|item items IH]; intros acc; cbn [foldl].
  - split; [auto|]. intros [H|(i & H & _)]; [done|by apply elem_of_nil in H].
  - rewrite IH, elem_of_union, elem_of_list_to_set. setoid_rewrite elem_of_cons. split.
    + intros [[H|H]|(i & H & Hi)]; eauto 6.
    + intros [H|(i & [-> | H] & Hi)]; eauto 6.
Qed.

Lemma collect_principals_foldl (field : PolicyItem → option (list string)) x
    hdfs_policies (acc : gset string) :
  x ∈ foldl (λ acc policy,
               foldl (λ acc item, acc ∪ list_to_set (default [] (field item)))
                     acc (policy_items policy)) acc hdfs_policies
  ↔ x ∈ acc ∨ ∃ policy item, policy ∈ hdfs_policies ∧ item ∈ policy_items policy
                              ∧ x ∈ default [] (field item).
Proof.
  revert acc. induction hdfs_policies as [|policy l IH]; intros acc; cbn [foldl].
  - split; [auto|]. intros [H|(p & i & H & _)]; [done|by apply elem_of_nil in H].
  - rewrite IH, collect_principals_items. setoid_rewrite elem_of_cons. split.
    + intros [[H|(i & H & Hi)]|(p & i & H & Hi)]; eauto 8.
    + intros [H|(p & i & [-> | H] & Hi)]; eauto 8.
Qed.

Lemma elem_of_collect_principals (field : PolicyItem → option (list string)) x hdfs_policies :
  x ∈ collect_principals field hdfs_policies
  ↔ ∃ policy item, policy ∈ hdfs_policies ∧ item ∈ policy_items policy
                   ∧ x ∈ default [] (field item).
Proof.
  unfold collect_principals. rewrite collect_principals_foldl. split; [|auto].
  intros [H|H]; [by apply not_elem_of_empty in H|done].
Qed.




End synthesizer_more.

(** X10. The ROOT-level and the CONTAINER-level policy of a synthesis carry
    one item, which grants read to the union of the principals: every
    emitted policy without key resource has this item, and a user, group or
    role is in it exactly when some item of some input policy names it. *)
Theorem synthesized_read_principals (fid : string) (hdfs_policies : list Policy)
    (ozone_service : string) (field : PolicyItem → option (list string)) (x : string) :
  let union := λ f, elements (collect_principals f hdfs_policies) in
  Forall (λ policy, has_resource "key" policy
                    ∨ p_policyItems policy
                      = Some [read_item (union i_users) (union i_groups) (union i_roles)])
         (convert_hdfs_policies_for_fid fid hdfs_policies ozone_service)
  ∧ (x ∈ union field
     ↔ ∃ policy item, policy ∈ hdfs_policies ∧ item ∈ policy_items policy
                      ∧ x ∈ default [] (field item)).
Proof.
  intros union. split.
  - unfold convert_hdfs_policies_for_fid.
    apply Forall_app_2.
    + match goal with
      | |- Forall ?P (if _ then ?v ++ _ else ?v) => assert (Forall P v) as Hvol
      end.
      { destruct (bool_decide _); [|constructor]. constructor; [by right|constructor]. }
      destruct (bool_decide (collect_buckets _ _ ≠ ∅)); [|exact Hvol].
      apply Forall_app_2; [exact Hvol|]. constructor; [by right|constructor].
    + apply Forall_forall. intros p Hp. left.
      pose proof (key_level_policies_shape fid
                    (key_policies (categorize_hdfs_policies hdfs_policies))
                    ozone_service []) as Hs.
      rewrite Forall_forall in Hs. specialize (Hs p Hp).
      destruct Hs as [Hs|[[Hne _]|(b & k & Hs)]]; [| done |].
      * exfalso. unfold key_level_policies in Hp.
        apply list_elem_of_bind in Hp as (policy & Hp & _).
        apply list_elem_of_bind in Hp as (path & Hp & _).
        destruct (extract_bucket_and_key_from_path path fid) as [[bucket|] [key|]];
          try (by apply not_elem_of_nil in Hp).
        destruct (_ && _); [|by apply not_elem_of_nil in Hp].
        apply list_elem_of_singleton in Hp as ->. simpl in Hs.
        apply (f_equal (λ o, o ≫= (λ m : gmap string Resource, m !! "key"))) in Hs.
        vm_compute in Hs. discriminate Hs.
      * unfold has_resource. rewrite Hs. by eexists.
  - subst union. cbn beta. rewrite elem_of_elements. apply elem_of_collect_principals.
Qed.



(** ** Further properties of the ACL fallback resolver *)

Section fallback_more.

Lemma foldl_invariant {A B} (P : A → Prop) (f : A → B → A) (l : list B) (a : A) :
  P a → (∀ a x, P a → P (f a x)) → P (foldl f a l).
Proof.
  intros Ha Hf. revert a Ha. induction l as [|x l IH]; intros a Ha; simpl; auto.
Qed.

Lemma append_new_NoDup (x : string) (l : list string) : NoDup l → NoDup (append_new x l).
Proof.
  intros Hl. unfold append_new. case_decide; [done|].
  apply NoDup_app. split; [done|]. split; [|apply NoDup_singleton].
  intros y Hy ->%list_elem_of_singleton. done.
Qed.

Lemma append_new_Forall (P : string → Prop) (x : string) (l : list string) :
  P x → Forall P l → Forall P (append_new x l).
Proof.
  intros Hx Hl. unfold append_new. case_decide; [done|].
  apply Forall_app. split; [done|]. by constructor.
Qed.

Lemma parse_hdfs_facl_step_invariant (st : FaclScan) (raw : string) :
  facl_scan_invariant st → facl_scan_invariant (parse_hdfs_facl_step st raw).
Proof.
  intros (Hu & Hg & Hnu & Hng). unfold parse_hdfs_facl_step.
  repeat match goal with
    | |- context [if ?b then _ else _] => destruct b eqn:?
    | |- context [match Py.split ?c ?s with _ => _ end] =>
        destruct (Py.split c s) as [|? [|? [|? ?]]]
    end;
    unfold facl_scan_invariant; simpl;
    repeat split; auto using append_new_NoDup, append_new_Forall.
Qed.

Lemma full_step_add_user (st : FullScan) (user : string) (accesses : list Access) :
  full_scan_invariant st → nonempty user = true → user ∉ processed_users st →
  (∃ perms, accesses = convert_posix_to_ozone_permissions perms ∧ accesses ≠ []) →
  full_scan_invariant
    (mkFullScan
       (permission_items st ++ [mkPolicyItem (Some accesses) (Some [user]) (Some []) (Some [])])
       (processed_users st ∪ {[ user ]}) (processed_groups st)).
Proof.
  intros (Hi & Hu & Hg & Hpu & Hpg) Hne Hnew (perms & -> & Hacc).
  unfold full_scan_invariant. simpl. rewrite !bind_app. simpl.
  rewrite !app_nil_r. repeat split.
  - apply Forall_app. split; [done|]. constructor; [|constructor].
    split; [left; eauto|]. split; [done|eauto].
  - apply NoDup_app. split; [done|]. split; [|apply NoDup_singleton].
    intros y Hy ->%list_elem_of_singleton. auto.
  - done.
  - intros u [Hin| ->%list_elem_of_singleton]%elem_of_app; set_unfold; auto.
  - done.
Qed.

Lemma full_step_add_group (st : FullScan) (group : string) (accesses : list Access) :
  full_scan_invariant st → nonempty group = true → group ∉ processed_groups st →
  (∃ perms, accesses = convert_posix_to_ozone_permissions perms ∧ accesses ≠ []) →
  full_scan_invariant
    (mkFullScan
       (permission_items st ++ [mkPolicyItem (Some accesses) (Some []) (Some [group]) (Some [])])
       (processed_users st) (processed_groups st ∪ {[ group ]})).
Proof.
  intros (Hi & Hu & Hg & Hpu & Hpg) Hne Hnew (perms & -> & Hacc).
  unfold full_scan_invariant. simpl. rewrite !bind_app. simpl.
  rewrite !app_nil_r. repeat split.
  - apply Forall_app. split; [done|]. constructor; [|constructor].
    split; [right; eauto|]. split; [done|eauto].
  - done.
  - apply NoDup_app. split; [done|]. split; [|apply NoDup_singleton].
    intros y Hy ->%list_elem_of_singleton. auto.
  - done.
  - intros g [Hin| ->%list_elem_of_singleton]%elem_of_app; set_unfold; auto.
Qed.

Lemma facl_full_step_invariant (owner primary_group : string) (st : FullScan) (raw : string) :
  full_scan_invariant st → full_scan_invariant (facl_full_step owner primary_group st raw).
Proof.
  intros Hst. unfold facl_full_step.
  destruct (_ || _); [done|].
  destruct (Py.startswith "user:" _).
  - destruct (Py.split _ _) as [|? [|name [|perms ?]]]; try done.
    destruct (_ && _) eqn:Hc; [|done].
    apply andb_true_iff in Hc as [Hne Hnew]. apply bool_decide_eq_true in Hnew.
    destruct (convert_posix_to_ozone_permissions perms) as [|a accesses] eqn:E; [done|].
    apply full_step_add_user; try done. exists perms. by rewrite E.
  - destruct (Py.startswith "group:" _); [|done].
    destruct (Py.split _ _) as [|? [|name [|perms ?]]]; try done.
    destruct (_ && _) eqn:Hc; [|done].
    apply andb_true_iff in Hc as [Hne Hnew]. apply bool_decide_eq_true in Hnew.
    destruct (convert_posix_to_ozone_permissions perms) as [|a accesses] eqn:E; [done|].
    apply full_step_add_group; try done. exists perms. by rewrite E.
Qed.

End fallback_more.

(** X12. [parse_hdfs_facl] returns each user and each group once, and no
    empty name, whatever the text it is given. *)
Theorem parse_hdfs_facl_distinct (facl_output : string) :
  let '(users, groups) := parse_hdfs_facl facl_output in
  NoDup users ∧ NoDup groups
  ∧ Forall (λ user, nonempty user = true) users
  ∧ Forall (λ group, nonempty group = true) groups.
Proof.
  unfold parse_hdfs_facl.
  apply (foldl_invariant facl_scan_invariant).
  - repeat split; constructor.
  - intros st raw. apply parse_hdfs_facl_step_invariant.
Qed.

(** X13. [parse_hdfs_facl_full_permissions] gives one item per principal:
    every item names exactly one user or one group, never an empty name and
    never a role, carries the non-empty translation of an rwx string, and no
    user and no group is named by two items. *)
Theorem full_permissions_one_item_per_principal (facl_output : string) :
  let items := parse_hdfs_facl_full_permissions facl_output in
  Forall single_principal_item items
  ∧ NoDup (items ≫= item_users)
  ∧ NoDup (items ≫= item_groups).
Proof.
  unfold parse_hdfs_facl_full_permissions.
  destruct (foldl facl_owner_step _ _) as [owner primary_group].
  cut (full_scan_invariant
         (foldl (facl_full_step owner primary_group) (mkFullScan [] ∅ ∅)
                (Py.splitlines (Py.strip facl_output)))).
  { intros (Hi & Hu & Hg & _). done. }
  apply (foldl_invariant full_scan_invariant).
  - unfold full_scan_invariant. simpl. repeat split; try constructor;
      intros ? H; by apply elem_of_nil in H.
  - intros st raw. apply facl_full_step_invariant.
Qed.

(** X14. The fallback resolver fails closed: it returns nothing exactly
    when the root directory has no ACL text or the text gives no reader;
    otherwise its first policy is the ROOT-level one, and it returns at most
    one policy per child directory besides the ROOT-level and the
    CONTAINER-level one. *)
Theorem fallback_fails_closed (env : Env) (fid ozone_service : string) :
  let resolved := create_ozone_policies_from_hdfs_acls env fid ozone_service in
  let facl := get_hdfs_facl env (fid_path_of env fid) in
  (resolved = [] ↔ facl = EmptyString ∨ parse_hdfs_facl facl = ([], []))
  ∧ (resolved ≠ [] →
     (head resolved ≫= p_name) = Some (fid +:+ "_volume_policy_from_hdfs_acls")
     ∧ (head resolved ≫= p_resources) = Some {[ "volume" := res_values [fid] ]})
  ∧ length resolved ≤ 2 + length (get_hdfs_subdirs env (fid_path_of env fid)).
Proof.
  intros resolved facl. subst resolved facl.
  unfold create_ozone_policies_from_hdfs_acls. fold (fid_path_of env fid).
  destruct (get_hdfs_facl env (fid_path_of env fid)) as [|c facl] eqn:Ef;
    cbn [nonempty negb].
  { split; [tauto|]. split; [done|simpl; lia]. }
  destruct (parse_hdfs_facl (String c facl)) as [users groups].
  assert (length (get_hdfs_subdirs env (fid_path_of env fid)
                    ≫= acl_key_policy env fid (fid_path_of env fid) ozone_service)
          ≤ length (get_hdfs_subdirs env (fid_path_of env fid))) as Hlen.
  { induction (get_hdfs_subdirs env (fid_path_of env fid)) as [|b bs IH]; [done|].
    rewrite bind_cons, length_app. simpl.
    assert (length (acl_key_policy env fid (fid_path_of env fid) ozone_service b) ≤ 1)
      as Hb; [|lia].
    unfold acl_key_policy. destruct (nonempty _); [|simpl; lia].
    destruct (parse_hdfs_facl_full_permissions _); simpl; lia. }
  revert Hlen. destruct (get_hdfs_subdirs env (fid_path_of env fid)) as [|b bs];
    intros Hlen; destruct users as [|u us], groups as [|g gs];
    cbn [length app head mbind option_bind p_name p_resources].
    all: split; [split|split].
    all: try done.
    all: try (by right).
    all: try (intros [[=]|[=]]).
    all: try (simpl in *; lia).
Qed.

(** ** Further properties of the principal-preserving cloner *)

Section cloner_more.

Implicit Types (st : CloneState) (resources : gmap string Resource)
  (kind : string) (policy : Policy).

Lemma clone_database_resource ozone_prefix ozone_service_id st :
  cs_resources (clone_database ozone_prefix st) !! "database"
  = clone_resource ozone_prefix ozone_service_id "database" <$> cs_resources st !! "database".
Proof.
  unfold clone_database, clone_resource.
  destruct (cs_resources st !! "database") as [r|] eqn:E; [|by rewrite E].
  destruct (r_values r) eqn:Ev; simpl; [|by rewrite E, Ev].
  rewrite lookup_insert_eq. simpl. by rewrite Ev.
Qed.

Lemma clone_url_resource ozone_prefix ozone_service_id st :
  cs_resources (clone_url ozone_service_id st) !! "url"
  = clone_resource ozone_prefix ozone_service_id "url" <$> cs_resources st !! "url".
Proof.
  unfold clone_url, clone_resource.
  destruct (cs_resources st !! "url") as [r|] eqn:E; [|by rewrite E].
  destruct (r_values r) eqn:Ev; simpl; [|by rewrite E, Ev].
  rewrite lookup_insert_eq. simpl. by rewrite Ev.
Qed.

(** The resources of a clone, kind by kind. *)
Lemma clone_resources_kind resources ozone_prefix ozone_service_id kind :
  cs_resources (clone_resources resources ozone_prefix ozone_service_id) !! kind
  = clone_resource ozone_prefix ozone_service_id kind <$> resources !! kind.
Proof.
  destruct (decide (kind = "database")) as [->|Hd];
    [|destruct (decide (kind = "url")) as [->|Hu]].
  - unfold clone_resources.
    rewrite clone_udf_spec, !clone_skip_wildcard_spec. cbn [cs_resources].
    rewrite clone_url_lookup by done.
    by rewrite (clone_database_resource _ ozone_service_id).
  - unfold clone_resources.
    rewrite clone_udf_spec, !clone_skip_wildcard_spec. cbn [cs_resources].
    rewrite (clone_url_resource ozone_prefix), clone_database_lookup by done. done.
  - rewrite clone_resources_lookup by done. unfold clone_resource.
    destruct (resources !! kind) as [r|]; [|done]. simpl.
    destruct (r_values r); [|done]. by rewrite !decide_False by done.
Qed.

End cloner_more.

(** X15. A clone has the resource kinds of its source, with the same
    [isExcludes] and [isRecursive] flags; only the values of the database
    resource (each gets the prefix) and of the url resource (each is
    rewritten) change.  The identity fields are gone and the policy items
    are those of the source. *)
Theorem clone_resource_body (policy : Policy) (ozone_prefix ozone_service_id kind : string) :
  let cloned := clone_hive_policy policy ozone_prefix ozone_service_id in
  resource_of kind cloned
  = clone_resource ozone_prefix ozone_service_id kind <$> resource_of kind policy
  ∧ resource_values "database" cloned
    = (λ db, ozone_prefix +:+ "_" +:+ db) <$> resource_values "database" policy
  ∧ resource_values "url" cloned
    = transform_url ozone_service_id <$> resource_values "url" policy
  ∧ (kind ≠ "database" → kind ≠ "url" → resource_of kind cloned = resource_of kind policy)
  ∧ (r_isExcludes <$> resource_of kind cloned) = (r_isExcludes <$> resource_of kind policy)
  ∧ (r_isRecursive <$> resource_of kind cloned) = (r_isRecursive <$> resource_of kind policy)
  ∧ p_id cloned = None ∧ p_guid cloned = None ∧ p_version cloned = None
  ∧ p_policyItems cloned = p_policyItems policy.
Proof.
  intros cloned.
  assert (∀ k, resource_of k cloned
               = clone_resource ozone_prefix ozone_service_id k <$> resource_of k policy) as H.
  { intros k. subst cloned. unfold resource_of, clone_hive_policy. simpl.
    destruct (p_resources policy) as [m|]; [|done]. simpl. apply clone_resources_kind. }
  assert (∀ k, resource_values k cloned = default [] (resource_of k cloned ≫= r_values)) as Hv.
  { intros k. unfold resource_values, resource_of.
    destruct (p_resources cloned) as [m|]; [|done]. by destruct (m !! k). }
  assert (∀ k, resource_values k policy = default [] (resource_of k policy ≫= r_values)) as Hv'.
  { intros k. unfold resource_values, resource_of.
    destruct (p_resources policy) as [m|]; [|done]. by destruct (m !! k). }
  split; [apply H|]. split; [|split; [|split; [|split; [|split]]]].
  - rewrite Hv, Hv', H. destruct (resource_of "database" policy) as [r|]; [|done].
    unfold clone_resource. destruct (r_values r) eqn:Ev; simpl; by rewrite ?Ev.
  - rewrite Hv, Hv', H. destruct (resource_of "url" policy) as [r|]; [|done].
    unfold clone_resource. destruct (r_values r) eqn:Ev; simpl; by rewrite ?Ev.
  - intros Hd Hu. rewrite H. destruct (resource_of kind policy) as [r|]; [|done].
    unfold clone_resource. simpl. destruct (r_values r); [|done].
    by rewrite !decide_False by done.
  - rewrite H. destruct (resource_of kind policy) as [r|]; [|done].
    unfold clone_resource. simpl. destruct (r_values r); [|done].
    by repeat case_decide.
  - rewrite H. destruct (resource_of kind policy) as [r|]; [|done].
    unfold clone_resource. simpl. destruct (r_values r); [|done].
    by repeat case_decide.
  - done.
Qed.

(** ** The two URL shapes *)

Section urls.

Implicit Types (s t seg host fid layer db : string) (p q : ascii → bool).

Lemma all_chars_impl p q s :
  (∀ c, p c = true → q c = true) → all_chars p s = true → all_chars q s = true.
Proof.
  intros Hpq. induction s as [|c s IH]; [done|]. simpl.
  intros [Hc Hs]%andb_true_iff. by rewrite (Hpq c Hc), (IH Hs).
Qed.

Lemma url_name_char_not_slash c : url_name_char c = true → not_slash c = true.
Proof. unfold url_name_char. by intros [? _]%andb_true_iff. Qed.


(** What a span returns satisfies the predicate. *)
Lemma span_all p s h t : Py.span p s = (h, t) → all_chars p h = true.
Proof.
  revert h t. induction s as [|c s IH]; intros h t; simpl.
  - by intros [= <- <-].
  - destruct (p c) eqn:Hc; [|by intros [= <- <-]].
    destruct (Py.span p s) as [h' t']. intros [= <- <-]. simpl.
    by rewrite Hc, (IH h' t').
Qed.

Lemma match_layer_Some s layer r :
  match_layer s = Some (layer, r) → is_layer layer ∧ s = layer +:+ r.
Proof.
  unfold match_layer, is_layer.
  destruct (Py.strip_prefix "raw" s) eqn:E1.
  { intros [= <- <-]. apply strip_prefix_Some in E1. auto. }
  destruct (Py.strip_prefix "managed" s) eqn:E2.
  { intros [= <- <-]. apply strip_prefix_Some in E2. auto. }
  destruct (Py.strip_prefix "work" s) eqn:E3; [|done].
  intros [= <- <-]. apply strip_prefix_Some in E3. auto.
Qed.

Lemma match_layer_app layer r :
  is_layer layer → match_layer (layer +:+ String "/" r) = Some (layer, String "/" r).
Proof. intros [->|[->| ->]]; reflexivity. Qed.

Lemma span_name db suffix :
  all_chars url_name_char db = true → ends_name suffix = true →
  Py.span url_name_char (db +:+ suffix) = (db, suffix).
Proof.
  intros Hdb Hsuf. destruct suffix as [|c t].
  - rewrite string_app_nil_r. by apply span_all_chars_end.
  - apply span_all_chars; [done|]. by apply negb_true_iff.
Qed.

(** The end of both patterns: layer, [/hive/] and database name. *)
Lemma layer_and_database layer db suffix :
  is_layer layer → nonempty db = true → all_chars url_name_char db = true →
  ends_name suffix = true →
  ('(l, r5) ← match_layer (layer +:+ "/hive/" +:+ db +:+ suffix);
   r6 ← Py.strip_prefix "/hive/" r5;
   let '(db_name, _) := Py.span url_name_char r6 in
   if negb (nonempty db_name) then None else Some (l, db_name))
  = Some (layer, db).
Proof.
  intros Hl Hne Hdb Hsuf.
  change (layer +:+ "/hive/" +:+ db +:+ suffix)
    with (layer +:+ String "/" ("hive/" +:+ db +:+ suffix)).
  rewrite (match_layer_app _ _ Hl). cbn [mbind option_bind].
  change (String "/" ("hive/" +:+ db +:+ suffix)) with ("/hive/" +:+ (db +:+ suffix)).
  rewrite strip_prefix_app. cbn [mbind option_bind].
  rewrite (span_name _ _ Hdb Hsuf). by rewrite Hne.
Qed.


Lemma ofs_pattern_at_canonical host fid layer db suffix :
  nonempty host = true → all_chars not_slash host = true →
  nonempty fid = true → all_chars not_slash fid = true →
  is_layer layer → nonempty db = true → all_chars url_name_char db = true →
  ends_name suffix = true →
  ofs_pattern_at ("ofs://" +:+ host +:+ "/" +:+ fid +:+ "/" +:+ layer +:+ "/hive/"
                    +:+ db +:+ suffix)
  = Some (fid, layer, db).
Proof.
  intros Hh Hhs Hf Hfs Hl Hd Hds Hsuf. unfold ofs_pattern_at.
  rewrite strip_prefix_app. cbn [mbind option_bind].
  change (host +:+ "/" +:+ fid +:+ "/" +:+ layer +:+ "/hive/" +:+ db +:+ suffix)
    with (host +:+ String "/" (fid +:+ "/" +:+ layer +:+ "/hive/" +:+ db +:+ suffix)).
  rewrite (span_all_chars _ _ _ _ Hhs not_slash_slash), Hh. cbn [negb].
  change (String "/" (fid +:+ "/" +:+ layer +:+ "/hive/" +:+ db +:+ suffix))
    with ("/" +:+ (fid +:+ "/" +:+ layer +:+ "/hive/" +:+ db +:+ suffix)).
  rewrite strip_prefix_app. cbn [mbind option_bind].
  change (fid +:+ "/" +:+ layer +:+ "/hive/" +:+ db +:+ suffix)
    with (fid +:+ String "/" (layer +:+ "/hive/" +:+ db +:+ suffix)).
  rewrite (span_all_chars _ _ _ _ Hfs not_slash_slash), Hf. cbn [negb].
  change (String "/" (layer +:+ "/hive/" +:+ db +:+ suffix))
    with ("/" +:+ (layer +:+ "/hive/" +:+ db +:+ suffix)).
  rewrite strip_prefix_app. cbn [mbind option_bind].
  pose proof (layer_and_database layer db suffix Hl Hd Hds Hsuf) as Ht.
  destruct (match_layer _) as [[l r5]|]; [|done]. cbn [mbind option_bind] in *.
  destruct (Py.strip_prefix "/hive/" r5); [|done]. cbn [mbind option_bind] in *.
  destruct (Py.span url_name_char _) as [db_name ?].
  destruct (negb (nonempty db_name)); [done|]. by injection Ht as -> ->.
Qed.

(** What the groups of a match are made of. *)
Lemma hdfs_pattern_at_groups s fid layer db :
  hdfs_pattern_at s = Some (fid, layer, db) →
  nonempty fid = true ∧ all_chars not_slash fid = true ∧ is_layer layer
  ∧ nonempty db = true ∧ all_chars url_name_char db = true.
Proof.
  unfold hdfs_pattern_at.
  destruct (Py.strip_prefix "hdfs://" s) as [r0|]; [|done]. cbn [mbind option_bind].
  destruct (Py.span not_slash r0) as [host r1].
  destruct (negb (nonempty host)); [done|].
  destruct (Py.strip_prefix "/data/" r1) as [r2|]; [|done]. cbn [mbind option_bind].
  destruct (Py.span not_slash r2) as [f r3] eqn:Ef.
  destruct (negb (nonempty f)) eqn:Hf; [done|].
  destruct (Py.strip_prefix "/" r3) as [r4|]; [|done]. cbn [mbind option_bind].
  destruct (match_layer r4) as [[l r5]|] eqn:El; [|done]. cbn [mbind option_bind].
  destruct (Py.strip_prefix "/hive/" r5) as [r6|]; [|done]. cbn [mbind option_bind].
  destruct (Py.span url_name_char r6) as [d ?] eqn:Ed.
  destruct (negb (nonempty d)) eqn:Hd; [done|].
  intros [= <- <- <-].
  apply negb_false_iff in Hf, Hd. apply span_all in Ef, Ed.
  apply match_layer_Some in El as [El _]. done.
Qed.

Lemma hdfs_pattern_search_groups s fid layer db :
  hdfs_pattern_search s = Some (fid, layer, db) →
  nonempty fid = true ∧ all_chars not_slash fid = true ∧ is_layer layer
  ∧ nonempty db = true ∧ all_chars url_name_char db = true.
Proof.
  induction s as [|c s IH]; cbn [hdfs_pattern_search].
  - done.
  - destruct (hdfs_pattern_at (String c s)) eqn:E; [|exact IH].
    intros [= ->]. by apply hdfs_pattern_at_groups in E.
Qed.

Lemma no_double_slash_cons c d t :
  no_double_slash (String c (String d t))
  = negb (bool_decide (c = "/"%char) && bool_decide (d = "/"%char))
    && no_double_slash (String d t).
Proof. reflexivity. Qed.

(** The HDFS shape needs two separators in a row. *)
Lemma hdfs_pattern_search_no_double_slash s :
  no_double_slash s = true → hdfs_pattern_search s = None.
Proof.
  induction s as [|c s IH]; intros Hs.
  - reflexivity.
  - assert (hdfs_pattern_at (String c s) = None) as Hat.
    { unfold hdfs_pattern_at.
      destruct (Py.strip_prefix "hdfs://" (String c s)) as [r|] eqn:E; [|done].
      apply strip_prefix_Some in E. rewrite E in Hs. vm_compute in Hs. discriminate Hs. }
    cbn [hdfs_pattern_search]. rewrite Hat. apply IH.
    destruct s as [|d s]; [done|]. rewrite no_double_slash_cons in Hs.
    by apply andb_true_iff in Hs as [_ Hs].
Qed.

(** Segments without separator, joined by one separator each. *)
Lemma no_double_slash_segment seg d t :
  all_chars not_slash seg = true → not_slash d = true →
  no_double_slash (String d t) = true →
  no_double_slash (seg +:+ String "/" (String d t)) = true.
Proof.
  intros Hseg Hd Ht. induction seg as [|c seg IH].
  - change (EmptyString +:+ String "/" (String d t)) with (String "/" (String d t)).
    rewrite no_double_slash_cons, Ht, andb_true_r. apply negb_true_iff.
    apply andb_false_iff. right. unfold not_slash in Hd.
    apply bool_decide_eq_true in Hd. by apply bool_decide_eq_false.
  - rewrite string_app_cons. simpl in Hseg. apply andb_true_iff in Hseg as [Hc Hseg].
    specialize (IH Hseg).
    destruct (seg +:+ String "/" (String d t)) as [|e u] eqn:E; [done|].
    rewrite no_double_slash_cons, IH, andb_true_r. apply negb_true_iff, andb_false_iff. left.
    unfold not_slash in Hc. apply bool_decide_eq_true in Hc. by apply bool_decide_eq_false.
Qed.

Lemma no_double_slash_all seg :
  all_chars not_slash seg = true → no_double_slash seg = true.
Proof.
  induction seg as [|c seg IH]; [done|]. simpl all_chars. intros [Hc Hs]%andb_true_iff.
  destruct seg as [|d seg]; [done|]. rewrite no_double_slash_cons, (IH Hs), andb_true_r.
  apply negb_true_iff, andb_false_iff. left.
  unfold not_slash in Hc. apply bool_decide_eq_true in Hc. by apply bool_decide_eq_false.
Qed.

(** A rewritten URL holds the two separators of its scheme and no others in
    a row, so the HDFS shape is not found in it. *)
Lemma hdfs_pattern_not_in_ofs_url sid fid layer db :
  nonempty sid = true → all_chars not_slash sid = true →
  nonempty fid = true → all_chars not_slash fid = true →
  is_layer layer → nonempty db = true → all_chars url_name_char db = true →
  hdfs_pattern_search ("ofs://" +:+ sid +:+ "/" +:+ fid +:+ "/" +:+ layer +:+ "/hive/" +:+ db)
  = None.
Proof.
  intros Hs Hss Hf Hfs Hl Hd Hds.
  change (hdfs_pattern_search
            ("ofs://" +:+ sid +:+ "/" +:+ fid +:+ "/" +:+ layer +:+ "/hive/" +:+ db))
    with (hdfs_pattern_search
            (String "/" (sid +:+ "/" +:+ fid +:+ "/" +:+ layer +:+ "/hive/" +:+ db))).
  apply hdfs_pattern_search_no_double_slash.
  assert (all_chars not_slash db = true) as Hds'
    by (eapply all_chars_impl; [apply url_name_char_not_slash|done]).
  assert (all_chars not_slash layer = true) as Hls by (by destruct Hl as [->|[->| ->]]).
  destruct sid as [|s0 sid], fid as [|f0 fid], db as [|d0 db]; try done.
  assert (∃ l0 layer', layer = String l0 layer') as (l0 & layer' & ->)
    by (destruct Hl as [->|[->| ->]]; eauto).
  simpl in Hss, Hfs, Hls, Hds'.
  apply andb_true_iff in Hss as [Hs0 Hss]. apply andb_true_iff in Hfs as [Hf0 Hfs].
  apply andb_true_iff in Hls as [Hl0 Hls]. apply andb_true_iff in Hds' as [Hd0 Hds'].
  assert (no_double_slash (String d0 db) = true) as H1
    by (apply no_double_slash_all; simpl; by rewrite Hd0, Hds').
  assert (no_double_slash ("hive" +:+ String "/" (String d0 db)) = true) as H2
    by (by apply no_double_slash_segment).
  assert (no_double_slash (String l0 layer' +:+ String "/" ("hive" +:+ String "/" (String d0 db)))
          = true) as H3
    by (apply no_double_slash_segment; [simpl; by rewrite Hl0, Hls|done|exact H2]).
  assert (no_double_slash
            (String f0 fid +:+ String "/"
               (String l0 (layer' +:+ String "/" ("hive" +:+ String "/" (String d0 db)))))
          = true) as H4
    by (apply no_double_slash_segment; [simpl; by rewrite Hf0, Hfs|done|exact H3]).
  assert (no_double_slash
            (String s0 sid +:+ String "/"
               (String f0 (fid +:+ String "/"
                  (String l0 (layer' +:+ String "/" ("hive" +:+ String "/" (String d0 db)))))))
          = true) as H5
    by (apply no_double_slash_segment; [simpl; by rewrite Hs0, Hss|done|exact H4]).
  apply (no_double_slash_segment EmptyString s0 _ eq_refl Hs0) in H5. exact H5.
Qed.




Lemma search_at_head_ofs s m : ofs_pattern_at s = Some m → ofs_pattern_search s = Some m.
Proof. intros H. destruct s; cbn [ofs_pattern_search]; by rewrite H. Qed.

(** The rewritten URL is of the OFS shape, with the groups of the match. *)
Lemma rewritten_url_groups sid fid layer db :
  nonempty sid = true → all_chars not_slash sid = true →
  nonempty fid = true → all_chars not_slash fid = true →
  is_layer layer → nonempty db = true → all_chars url_name_char db = true →
  ofs_pattern_search ("ofs://" +:+ sid +:+ "/" +:+ fid +:+ "/" +:+ layer +:+ "/hive/" +:+ db)
  = Some (fid, layer, db).
Proof.
  intros Hs Hss Hf Hfs Hl Hd Hds. apply search_at_head_ofs.
  pose proof (ofs_pattern_at_canonical sid fid layer db EmptyString
                Hs Hss Hf Hfs Hl Hd Hds eq_refl) as H.
  by rewrite string_app_nil_r in H.
Qed.

End urls.



(** X17. Cloning keeps the database a URL stands for: when the stripped
    URL is of the HDFS shape, the rewritten URL is of the OFS shape with the
    same root identifier, layer and database, and the database filter reads
    the same database from both. *)
Theorem rewritten_url_same_database
    (ozone_service_id url fid layer db : string) (db_values : list string) :
  nonempty ozone_service_id = true → all_chars not_slash ozone_service_id = true →
  hdfs_pattern_search (Py.strip url) = Some (fid, layer, db) →
  hdfs_pattern_search (transform_url ozone_service_id url) = None
  ∧ ofs_pattern_search (transform_url ozone_service_id url) = Some (fid, layer, db)
  ∧ url_database_step db_values (transform_url ozone_service_id url)
    = url_database_step db_values (Py.strip url).
Proof.
  intros Hs Hss Hm.
  destruct (hdfs_pattern_search_groups _ _ _ _ Hm) as (Hf & Hfs & Hl & Hd & Hds).
  unfold url_database_step, transform_url. rewrite Hm.
  rewrite (hdfs_pattern_not_in_ofs_url _ _ _ _ Hs Hss Hf Hfs Hl Hd Hds).
  by rewrite (rewritten_url_groups _ _ _ _ Hs Hss Hf Hfs Hl Hd Hds).
Qed.

Lemma rewritten_url_same_database_witness :
  hdfs_pattern_search (transform_url "ozone1" " hdfs://ns1/data/fid2/raw/hive/Db4/t ") = None
  ∧ ofs_pattern_search (transform_url "ozone1" " hdfs://ns1/data/fid2/raw/hive/Db4/t ")
    = Some ("fid2", "raw", "Db4")
  ∧ url_database_step ["x"] (transform_url "ozone1" " hdfs://ns1/data/fid2/raw/hive/Db4/t ")
    = url_database_step ["x"] (Py.strip " hdfs://ns1/data/fid2/raw/hive/Db4/t ").
Proof.
  apply (rewritten_url_same_database "ozone1" " hdfs://ns1/data/fid2/raw/hive/Db4/t "
           "fid2" "raw" "Db4" ["x"]); reflexivity.
Defined.

(** ** The Hive policy filter and the cleanup selection *)

Section hive_filter.

Implicit Types (policy : Policy) (policies : list Policy).

Lemma filter_hive_policies_foldl include_databases exclude_databases policies acc :
  foldl (λ filtered policy,
           if is_default_policy policy then filtered
           else if negb (matches_database_filter policy include_databases exclude_databases)
           then filtered
           else filtered ++ [policy])
        acc policies
  = acc ++ filter (λ policy, passes_filter include_databases exclude_databases policy = true)
                  policies.
Proof.
  revert acc. induction policies as [|p ps IH]; intros acc.
  - by rewrite app_nil_r.
  - cbn [foldl]. rewrite IH, filter_cons.
    destruct (decide (passes_filter include_databases exclude_databases p = true)) as [Hp|Hp];
      unfold passes_filter in Hp;
      destruct (is_default_policy p),
               (matches_database_filter p include_databases exclude_databases);
      cbn [negb andb] in *; try done.
    by rewrite <- app_assoc.
Qed.

Lemma filter_hive_policies_filter policies include_databases exclude_databases :
  filter_hive_policies policies include_databases exclude_databases
  = filter (λ policy, passes_filter include_databases exclude_databases policy = true)
           policies.
Proof. unfold filter_hive_policies. by rewrite filter_hive_policies_foldl. Qed.

Lemma cleanup_step_foldl include_databases policies to_delete to_keep :
  foldl (cleanup_step include_databases) (to_delete, to_keep) policies
  = (to_delete ++ filter (λ policy, marked_for_deletion include_databases policy = true)
                         policies,
     to_keep ++ filter (λ policy, marked_for_deletion include_databases policy ≠ true)
                       policies).
Proof.
  revert to_delete to_keep. induction policies as [|p ps IH]; intros to_delete to_keep.
  - by rewrite !app_nil_r.
  - cbn [foldl]. rewrite !filter_cons.
    assert (cleanup_step include_databases (to_delete, to_keep) p
            = if marked_for_deletion include_databases p
              then (to_delete ++ [p], to_keep) else (to_delete, to_keep ++ [p])) as ->.
    { unfold cleanup_step, marked_for_deletion.
      destruct (is_default_policy p); [done|].
      destruct (has_url_resource p); [done|].
      destruct (list_truthy include_databases); [|done].
      by destruct (matches_database_filter p include_databases []). }
    destruct (marked_for_deletion include_databases p).
    + rewrite IH, decide_True, decide_False by auto. by rewrite <- app_assoc.
    + rewrite IH, decide_False, decide_True by auto. by rewrite <- app_assoc.
Qed.

Lemma get_policies_for_cleanup_filter policies include_databases :
  get_policies_for_cleanup policies include_databases
  = (filter (λ policy, marked_for_deletion include_databases policy = true) policies,
     filter (λ policy, marked_for_deletion include_databases policy ≠ true) policies).
Proof. unfold get_policies_for_cleanup. by rewrite cleanup_step_foldl. Qed.

Lemma filter_complement_Permutation {A} (P : A → Prop) `{∀ x, Decision (P x)} (l : list A) :
  filter P l ++ filter (λ x, ¬ P x) l ≡ₚ l.
Proof.
  induction l as [|x l IH]; [done|]. rewrite !filter_cons.
  destruct (decide (P x)).
  - rewrite decide_False by auto. simpl. by rewrite IH.
  - rewrite decide_True by auto. rewrite <- Permutation_middle. by rewrite IH.
Qed.

Lemma list_truthy_fmap {A B} (f : A → B) (l : list A) :
  list_truthy (f <$> l) = list_truthy l.
Proof. by destruct l. Qed.

Lemma any_in_truthy names db_values :
  any_in names db_values = true → list_truthy names = true ∧ list_truthy db_values = true.
Proof.
  unfold any_in. intros H. apply existsb_exists in H as (db & Hin & Hdb).
  apply bool_decide_eq_true in Hdb. split.
  - destruct names; [|done]. by apply elem_of_nil in Hdb.
  - destruct db_values; [|done]. by destruct Hin.
Qed.

Lemma matches_no_filter policy : matches_database_filter policy [] [] = true.
Proof. unfold matches_database_filter. by destruct (list_truthy (effective_databases policy)). Qed.

Lemma lower_char_idemp c : Py.lower_char (Py.lower_char c) = Py.lower_char c.
Proof.
  destruct c as [[] [] [] [] [] [] [] []]; reflexivity.
Qed.

Lemma lower_idemp s : Py.lower (Py.lower s) = Py.lower s.
Proof.
  induction s as [|c s IH]; [done|]. simpl. by rewrite lower_char_idemp, IH.
Qed.

Lemma lower_fmap_idemp (names : list string) :
  Py.lower <$> (Py.lower <$> names) = Py.lower <$> names.
Proof.
  rewrite <- list_fmap_compose. apply list_fmap_ext. intros _ s _. apply lower_idemp.
Qed.

Lemma create_cloned_hive_policies_fmap policies ozone_prefix ozone_service_id :
  create_cloned_hive_policies policies ozone_prefix ozone_service_id
  = (λ policy, clone_hive_policy policy ozone_prefix ozone_service_id) <$> policies.
Proof.
  unfold create_cloned_hive_policies.
  enough (∀ acc,
            foldl (λ cloned policy,
                     cloned ++ [clone_hive_policy policy ozone_prefix ozone_service_id])
                  acc policies
            = acc ++ ((λ policy, clone_hive_policy policy ozone_prefix ozone_service_id)
                        <$> policies)) as H by apply (H []).
  induction policies as [|p ps IH]; intros acc; [by rewrite app_nil_r|].
  cbn [foldl]. rewrite IH, fmap_cons. by rewrite <- app_assoc.
Qed.

End hive_filter.

(** X18. The filter keeps the policies in their order, and keeps exactly
    those that are not default policies and match the database lists. *)
Theorem filter_hive_policies_selection
    (policies : list Policy) (include_databases exclude_databases : list string) :
  filter_hive_policies policies include_databases exclude_databases `sublist_of` policies
  ∧ ∀ policy,
      policy ∈ filter_hive_policies policies include_databases exclude_databases
      ↔ policy ∈ policies ∧ is_default_policy policy = false
        ∧ matches_database_filter policy include_databases exclude_databases = true.
Proof.
  rewrite filter_hive_policies_filter. split; [apply sublist_filter|].
  intros policy. rewrite list_elem_of_filter. unfold passes_filter.
  rewrite andb_true_iff, negb_true_iff. tauto.
Qed.

(** X19. The cleanup selection splits the policies: every policy is either
    deleted or kept, both lists are in the order of the input, and no
    default policy and no policy with a URL is ever marked for deletion. *)
Theorem cleanup_selection_partition
    (policies : list Policy) (include_databases : list string) :
  let '(policies_to_delete, policies_to_keep) :=
    get_policies_for_cleanup policies include_databases in
  policies_to_delete ++ policies_to_keep ≡ₚ policies
  ∧ policies_to_delete `sublist_of` policies
  ∧ policies_to_keep `sublist_of` policies
  ∧ Forall (λ policy, is_default_policy policy = false ∧ has_url_resource policy = false)
           policies_to_delete.
Proof.
  rewrite get_policies_for_cleanup_filter.
  split; [apply filter_complement_Permutation|].
  split; [apply sublist_filter|]. split; [apply sublist_filter|].
  apply Forall_forall. intros policy [Hm _]%list_elem_of_filter.
  unfold marked_for_deletion in Hm.
  apply andb_true_iff in Hm as [[Hd Hu]%andb_true_iff _].
  by apply negb_true_iff in Hd, Hu.
Qed.

(** X20. What the cleanup deletes is what the filter with the same include
    list and no exclude list lets through, without the policies that carry
    a URL. *)
Theorem cleanup_deletes_filtered_without_urls
    (policies : list Policy) (include_databases : list string) :
  (get_policies_for_cleanup policies include_databases).1
  = filter (λ policy, has_url_resource policy = false)
           (filter_hive_policies policies include_databases []).
Proof.
  rewrite get_policies_for_cleanup_filter, filter_hive_policies_filter. cbn [fst].
  rewrite list_filter_filter. apply list_filter_iff. intros policy.
  unfold marked_for_deletion, passes_filter.
  destruct (is_default_policy policy), (has_url_resource policy); cbn [negb andb];
    try (intuition congruence).
  destruct include_databases as [|d ds]; cbn [list_truthy negb orb].
  - rewrite matches_no_filter. tauto.
  - tauto.
Qed.

(** X21. Exclusion wins: a policy one of whose databases, declared or read
    from a URL, is on the exclude list does not match, whatever the include
    list. *)
Theorem exclusion_wins
    (policy : Policy) (include_databases exclude_databases : list string) :
  any_in exclude_databases (effective_databases policy) = true →
  matches_database_filter policy include_databases exclude_databases = false.
Proof.
  intros Hany. destruct (any_in_truthy _ _ Hany) as [He Hd].
  unfold matches_database_filter. rewrite Hd, He, Hany. reflexivity.
Qed.

Lemma exclusion_wins_witness :
  matches_database_filter
    (mkPolicy None None None None (Some "sales") None
       (Some {[ "database" := mkResource (Some ["Sales_DB"]) None None ]}) None)
    ["sales_db"] ["SALES_db"] = false.
Proof.
  apply (exclusion_wins
           (mkPolicy None None None None (Some "sales") None
              (Some {[ "database" := mkResource (Some ["Sales_DB"]) None None ]}) None)
           ["sales_db"] ["SALES_db"]).
  apply (bool_decide_unpack _). vm_compute. exact I.
Defined.

(** X22. The database lists are read without regard to case: lowering the
    names of both lists changes no answer of the filter. *)
Theorem database_filter_ignores_case
    (policy : Policy) (include_databases exclude_databases : list string) :
  matches_database_filter policy (Py.lower <$> include_databases)
                          (Py.lower <$> exclude_databases)
  = matches_database_filter policy include_databases exclude_databases.
Proof.
  unfold matches_database_filter, any_in.
  by rewrite !list_truthy_fmap, !lower_fmap_idemp.
Qed.

(** X28. The clone stage after the filter: the cloned policies are the
    clones of the policies that are not default policies and match the
    database lists, one for each, in the order of the export. *)
Theorem cloned_policies_of_filtered
    (policies : list Policy) (include_databases exclude_databases : list string)
    (ozone_prefix ozone_service_id : string) :
  create_cloned_hive_policies
    (filter_hive_policies policies include_databases exclude_databases)
    ozone_prefix ozone_service_id
  = (λ policy, clone_hive_policy policy ozone_prefix ozone_service_id)
      <$> filter (λ policy, is_default_policy policy = false
                            ∧ matches_database_filter policy include_databases
                                exclude_databases = true)
                 policies.
Proof.
  rewrite create_cloned_hive_policies_fmap, filter_hive_policies_filter. f_equal.
  apply list_filter_iff. intros policy. unfold passes_filter.
  rewrite andb_true_iff, negb_true_iff. tauto.
Qed.

(** ** Submission to the policy store *)

Section store.

Context {Store : Type}.
Implicit Types (store : Store) (results : Results) (policy : Policy).

Lemma count_result_total ok results :
  success (count_result ok results) + failed (count_result ok results)
  = S (success results + failed results).
Proof. destruct ok; simpl; lia. Qed.

Lemma count_result_failed ok results :
  failed results ≤ failed (count_result ok results).
Proof. destruct ok; simpl; lia. Qed.

Lemma cleanup_hive_policies_snoc delete_policy store policies policy :
  cleanup_hive_policies delete_policy store (policies ++ [policy])
  = cleanup_policy_step delete_policy
      (cleanup_hive_policies delete_policy store policies) policy.
Proof. unfold cleanup_hive_policies. by rewrite foldl_app. Qed.

Lemma import_policies_snoc import_policy store policies policy :
  import_policies import_policy store (policies ++ [policy])
  = import_policy_step import_policy (import_policies import_policy store policies) policy.
Proof. unfold import_policies. by rewrite foldl_app. Qed.

Lemma after_requests_snoc {A} (request : Store → A → bool * Store) store l x :
  after_requests request store (l ++ [x])
  = (request (after_requests request store l) x).2.
Proof. unfold after_requests. by rewrite foldl_app. Qed.

Lemma policy_ids_snoc (policies : list Policy) policy :
  policy_ids (policies ++ [policy])
  = policy_ids policies ++ match p_id policy with
                           | Some (S n) => [S n]
                           | _ => []
                           end.
Proof.
  unfold policy_ids. rewrite omap_app. f_equal.
  destruct (p_id policy) as [[|n]|] eqn:E; simpl; by rewrite E.
Qed.

Lemma without_id_snoc (policies : list Policy) policy :
  length (filter (λ policy, has_id policy = false) (policies ++ [policy]))
  = length (filter (λ policy, has_id policy = false) policies)
    + (if has_id policy then 0 else 1).
Proof.
  rewrite filter_app, length_app. f_equal.
  rewrite filter_cons, filter_nil. by destruct (has_id policy).
Qed.

End store.

(** X23. The cleanup sends one delete request for every policy with a
    truthy id, in the order of the list and whatever the earlier answers
    were, and none for the others; every policy is counted once, and a
    policy without id is counted as failed. *)
Theorem cleanup_requests_and_counts {Store : Type}
    (delete_policy : Store → nat → bool * Store) (store : Store)
    (policies_to_delete : list Policy) :
  let '(results, store') := cleanup_hive_policies delete_policy store policies_to_delete in
  store' = after_requests delete_policy store (policy_ids policies_to_delete)
  ∧ success results + failed results = length policies_to_delete
  ∧ length (filter (λ policy, has_id policy = false) policies_to_delete) ≤ failed results.
Proof.
  induction policies_to_delete as [|policy policies IH] using rev_ind; [done|].
  rewrite cleanup_hive_policies_snoc.
  destruct (cleanup_hive_policies delete_policy store policies) as [results store'].
  destruct IH as (-> & Hcount & Hfailed).
  rewrite policy_ids_snoc, without_id_snoc, length_app.
  unfold cleanup_policy_step.
  assert (has_id policy = match p_id policy with Some (S _) => true | _ => false end)
    as -> by done.
  destruct (p_id policy) as [[|n]|].
  - rewrite app_nil_r. split; [done|]. simpl. lia.
  - rewrite after_requests_snoc.
    destruct (delete_policy _ (S n)) as [ok store''] eqn:E.
    split; [done|]. pose proof (count_result_total ok results).
    pose proof (count_result_failed ok results). simpl. lia.
  - rewrite app_nil_r. split; [done|]. simpl. lia.
Qed.

(** X24. The import submits every policy, in the order of the list and
    whatever the earlier answers were, and counts every policy once. *)
Theorem import_requests_and_counts {Store : Type}
    (import_policy : Store → Policy → bool * Store) (store : Store)
    (policies : list Policy) :
  let '(results, store') := import_policies import_policy store policies in
  store' = after_requests import_policy store policies
  ∧ success results + failed results = length policies.
Proof.
  induction policies as [|policy policies IH] using rev_ind; [done|].
  rewrite import_policies_snoc.
  destruct (import_policies import_policy store policies) as [results store'].
  destruct IH as [-> Hcount]. rewrite after_requests_snoc, length_app.
  unfold import_policy_step.
  destruct (import_policy _ policy) as [ok store''].
  split; [done|]. pose proof (count_result_total ok results). simpl. lia.
Qed.

(** ** Lists read from files *)

Section lists.

Implicit Types (s t line : string) (c d : ascii) (p : ascii → bool).

Lemma lstrip_by_head_ok p s : head_ok p (Py.lstrip_by p s) = true.
Proof.
  induction s as [|d s IH]; [done|]. simpl.
  destruct (p d) eqn:Hd; [done|]. simpl. by rewrite Hd.
Qed.

Lemma lstrip_by_fixed p s : head_ok p s = true → Py.lstrip_by p s = s.
Proof. destruct s as [|d s]; [done|]. simpl. by intros ->%negb_true_iff. Qed.

Lemma rstrip_by_head_ok p s : head_ok p s = true → head_ok p (Py.rstrip_by p s) = true.
Proof.
  destruct s as [|d s]; [done|]. simpl. intros Hd.
  destruct (Py.rstrip_by p s); [|done].
  apply negb_true_iff in Hd as Hd'. rewrite Hd'. done.
Qed.

Lemma rstrip_by_idemp p s : Py.rstrip_by p (Py.rstrip_by p s) = Py.rstrip_by p s.
Proof.
  induction s as [|d s IH]; [done|]. simpl.
  destruct (Py.rstrip_by p s) as [|e r] eqn:E.
  - destruct (p d) eqn:Hd; [done|]. simpl. by rewrite Hd.
  - change (Py.rstrip_by p (String d (String e r))) with
      (match Py.rstrip_by p (String e r) with
       | EmptyString => if p d then EmptyString else String d EmptyString
       | r' => String d r'
       end).
    by rewrite IH.
Qed.

Lemma strip_by_idemp p s :
  Py.rstrip_by p (Py.lstrip_by p (Py.rstrip_by p (Py.lstrip_by p s)))
  = Py.rstrip_by p (Py.lstrip_by p s).
Proof.
  rewrite (lstrip_by_fixed _ (Py.rstrip_by _ _)).
  - apply rstrip_by_idemp.
  - apply rstrip_by_head_ok, lstrip_by_head_ok.
Qed.

Lemma strip_idemp s : Py.strip (Py.strip s) = Py.strip s.
Proof. apply strip_by_idemp. Qed.

Lemma strip_char_idemp c s : Py.strip_char c (Py.strip_char c s) = Py.strip_char c s.
Proof. apply strip_by_idemp. Qed.

(** What precedes the first separator does not hold it. *)
Lemma partition_char_in c s key value :
  Py.partition c s = Some (key, value) → Py.char_in c key = false.
Proof.
  revert key. induction s as [|d s IH]; intros key; [done|]. simpl.
  destruct (decide (d = c)) as [|Hd]; [by intros [= <- <-]|].
  destruct (Py.partition c s) as [[k v]|]; [|done]. intros [= <- <-].
  simpl. rewrite decide_False by done. by apply IH.
Qed.

Lemma lstrip_by_char_in p c s :
  Py.char_in c s = false → Py.char_in c (Py.lstrip_by p s) = false.
Proof.
  induction s as [|d s IH]; [done|]. simpl.
  destruct (decide (d = c)); [done|]. intros Hs.
  destruct (p d); [by apply IH|]. simpl. by rewrite decide_False.
Qed.

Lemma rstrip_by_char_in p c s :
  Py.char_in c s = false → Py.char_in c (Py.rstrip_by p s) = false.
Proof.
  induction s as [|d s IH]; [done|]. simpl.
  destruct (decide (d = c)) as [|Hd]; [done|]. intros Hs. specialize (IH Hs).
  destruct (Py.rstrip_by p s) as [|e r].
  - destruct (p d); [done|]. simpl. by rewrite decide_False.
  - simpl. rewrite decide_False by done. exact IH.
Qed.

Lemma strip_char_in c s : Py.char_in c s = false → Py.char_in c (Py.strip s) = false.
Proof. intros H. by apply rstrip_by_char_in, lstrip_by_char_in. Qed.

(** No field of a split holds the separator. *)
Lemma split_char_in c s : Forall (λ field, Py.char_in c field = false) (Py.split c s).
Proof.
  induction s as [|d s IH]; [by constructor|]. simpl.
  destruct (decide (d = c)) as [|Hd]; [by constructor|].
  destruct (Py.split c s) as [|h t]; inversion IH; subst.
  - constructor; [|done]. simpl. by rewrite decide_False.
  - constructor; [|done]. simpl. by rewrite decide_False.
Qed.

(** A split at the first separator. *)
Lemma split_app c line rest :
  Py.char_in c line = false →
  Py.split c (line +:+ String c rest) = line :: Py.split c rest.
Proof.
  induction line as [|d line IH].
  - intros _. change (EmptyString +:+ String c rest) with (String c rest).
    simpl. by rewrite decide_True.
  - rewrite string_app_cons. simpl.
    destruct (decide (d = c)); [done|]. intros H. by rewrite (IH H).
Qed.

End lists.

(** X25. Every item read from a list file is non-empty, has no white space
    at either end and holds no comma; a file that cannot be read gives no
    item. *)
Theorem load_list_items (file : option string) :
  Forall (λ item, nonempty item = true ∧ Py.strip item = item
                  ∧ Py.char_in "," item = false)
         (load_list_from_file file).
Proof.
  destruct file as [content|]; [|by constructor].
  unfold load_list_from_file, load_list_from_content.
  apply Forall_forall. intros item [Hne Hin]%list_elem_of_filter.
  apply list_elem_of_fmap in Hin as (field & -> & Hfield).
  split; [done|]. split; [apply strip_idemp|].
  apply strip_char_in.
  pose proof (split_char_in "," (Py.join " " (kept_lines content))) as Hsplit.
  rewrite Forall_forall in Hsplit. by apply Hsplit.
Qed.

(** X26. A comment line and a blank line of a list file contribute
    nothing: a first line that, stripped, is empty or begins with the
    comment sign can be left out. *)
Theorem load_list_skips_comments (line rest : string) :
  Py.char_in "010" line = false →
  nonempty (Py.strip line) = false ∨ Py.startswith "#" (Py.strip line) = true →
  load_list_from_content (line +:+ String "010" rest) = load_list_from_content rest.
Proof.
  intros Hline Hskip. unfold load_list_from_content, kept_lines.
  rewrite (split_app _ _ _ Hline), fmap_cons, filter_cons, decide_False; [done|].
  intros [Hne Hc]. destruct Hskip as [H|H]; congruence.
Qed.

Lemma load_list_skips_comments_witness :
  load_list_from_content ("  # staging databases" +:+ String "010" "db1, db2")
  = load_list_from_content "db1, db2".
Proof.
  apply (load_list_skips_comments "  # staging databases" "db1, db2");
    [reflexivity|right; reflexivity].
Defined.

(** X27. Every key of the configuration read from a file has no white
    space at either end and holds no equals sign, and no value begins or
    ends with a double quote. *)
Theorem load_config_entries
    (file : option (list string)) (config : gmap string string) (key value : string) :
  load_config file = Some config → config !! key = Some value →
  Py.strip key = key ∧ Py.char_in "=" key = false ∧ Py.strip_char "034" value = value.
Proof.
  destruct file as [lines|]; [|done]. intros [= <-]. revert key value.
  apply (foldl_invariant
           (λ config : gmap string string, ∀ key value, config !! key = Some value →
              Py.strip key = key ∧ Py.char_in "=" key = false
              ∧ Py.strip_char "034" value = value)).
  - intros key value H. by rewrite lookup_empty in H.
  - intros config raw IH key value. unfold load_config_step.
    destruct (nonempty (Py.strip raw) && negb (Py.startswith "#" (Py.strip raw)));
      [|by apply IH].
    destruct (Py.partition "=" (Py.strip raw)) as [[k v]|] eqn:E; [|by apply IH].
    destruct (decide (key = Py.strip k)) as [->|Hne].
    + rewrite lookup_insert_eq. intros [= <-].
      split; [apply strip_idemp|]. split; [|apply strip_char_idemp].
      apply strip_char_in. by apply partition_char_in in E.
    + rewrite lookup_insert_ne by done. by apply IH.
Qed.

Lemma load_config_entries_witness :
  Py.strip "PORT" = "PORT" ∧ Py.char_in "=" "PORT" = false
  ∧ Py.strip_char "034" "6182" = "6182".
Proof.
  apply (load_config_entries
           (Some ["# Ranger";
                  " PORT = " +:+ String "034"
                                   ("6182" +:+ String "034" (String "010" EmptyString))])
           _ "PORT" "6182" eq_refl).
  apply (bool_decide_unpack _). vm_compute. exact I.
Defined.
